(** * Rate-limit-aware enrichment engine of [utils/fd_securities/enrich_company_info.py]

    A shallow embedding of the adaptive concurrency budget ([_concurrency],
    [_acquire_slot], [_release_slot], [_on_429]), of the two retrying fetchers
    ([fetch_info], [fetch_isin_fallback]), of the per-row worker ([enrich_row])
    and of the aggregation loop of [main], followed by the properties of the
    specification that concern them.

    Conventions.
    - Python integers are [Z]; loop indices produced by [range] are [nat].
    - Strings are [string] (sequences of 8-bit characters); [str.strip] and
      [str.upper] are modelled on the ASCII range.
    - A CSV row and a JSON object are dictionaries keyed by strings: [gmap].
    - The network is an oracle: what [urlopen] answers to the n-th request a
      task issues.  Everything a task does that another thread or the service
      can observe is recorded, in order, in the task's log of [action]s.
    - Progress messages ([print]) are not modelled; [api_key], [index] and
      [total] only feed those messages and the key parameter of the URL, and
      are omitted.
    - The worker is embedded twice.  The first embedding follows a task
      through the outcomes its [except] clauses and its decoding provide
      for, and is total.  Module [Raising] embeds the same functions with
      the exceptions they let through, and [main] with its executor and its
      completion loop; the two agree where the first applies. *)

From Stdlib Require Import ZArith Lia List Ascii String.
From stdpp Require Import base tactics option list gmap strings fin_maps.

Local Open Scope Z_scope.
Local Open Scope string_scope.

(** ** Python string primitives *)

Module PyStr.

(** [str.isspace] on one ASCII character: TAB, LF, VT, FF, CR, FS, GS, RS,
    US and SPACE. *)
Definition is_space (a : ascii) : bool :=
  let n := N_of_ascii a in
  ((9 <=? n) && (n <=? 13) || (28 <=? n) && (n <=? 32))%N.

Fixpoint lstrip (s : string) : string :=
  match s with
  | EmptyString => EmptyString
  | String a s' => if is_space a then lstrip s' else s
  end.

Fixpoint rstrip (s : string) : string :=
  match s with
  | EmptyString => EmptyString
  | String a s' =>
      match rstrip s' with
      | EmptyString => if is_space a then EmptyString else String a EmptyString
      | r => String a r
      end
  end.

(** [s.strip()] *)
Definition strip (s : string) : string := lstrip (rstrip s).

(** [c.upper()] for one character, [s.upper()] *)
Definition upper_ascii (a : ascii) : ascii :=
  let n := N_of_ascii a in
  if ((97 <=? n) && (n <=? 122))%N then ascii_of_N (n - 32) else a.

Fixpoint upper (s : string) : string :=
  match s with
  | EmptyString => EmptyString
  | String a s' => String (upper_ascii a) (upper s')
  end.

Definition is_dot (a : ascii) : bool := (N_of_ascii a =? 46)%N.

(** ["." in s] *)
Fixpoint has_dot (s : string) : bool :=
  match s with
  | EmptyString => false
  | String a s' => is_dot a || has_dot s'
  end.

(** [s.rsplit(".", 1)]: [None] when [s] has no dot (Python then returns
    the one-element list [[s]]), otherwise the text before and after the
    last dot. *)
Fixpoint rsplit_dot (s : string) : option (string * string) :=
  match s with
  | EmptyString => None
  | String a s' =>
      match rsplit_dot s' with
      | Some (before, after) => Some (String a before, after)
      | None => if is_dot a then Some (EmptyString, s') else None
      end
  end.

(** [s.rsplit(".", 1)[0]] and [s.rsplit(".", 1)[-1]] *)
Definition rsplit_dot_first (s : string) : string :=
  match rsplit_dot s with Some (before, _) => before | None => s end.

Definition rsplit_dot_last (s : string) : string :=
  match rsplit_dot s with Some (_, after) => after | None => s end.

(** Truth value of a string: [bool(s)] *)
Definition truthy (s : string) : bool :=
  match s with EmptyString => false | _ => true end.

(** [a or b] on strings *)
Definition or_else (a b : string) : string := if truthy a then a else b.

End PyStr.

(** ** Lookup tables *)

(** [INTL_EXCHANGE_MAP]: API exchange names, then ticker suffixes, to
    (exchange, country, currency).  The keys of the literal are pairwise
    distinct, so the first match is the dictionary's entry. *)
Definition INTL_EXCHANGE_MAP : list (string * (string * string * string)) :=
  [ ("London Stock Exchange",         ("LSE",  "UK",          "GBP"));
    ("Toronto Stock Exchange",        ("TO",   "Canada",      "CAD"));
    ("TSX Venture Exchange",          ("V",    "Canada",      "CAD"));
    ("Frankfurt Stock Exchange",      ("F",    "Germany",     "EUR"));
    ("XETRA",                         ("XETRA","Germany",     "EUR"));
    ("Euronext Paris",                ("PA",   "France",      "EUR"));
    ("Euronext Amsterdam",            ("AS",   "Netherlands", "EUR"));
    ("Tokyo Stock Exchange",          ("T",    "Japan",       "JPY"));
    ("Hong Kong Stock Exchange",      ("HK",   "Hong Kong",   "HKD"));
    ("Singapore Exchange",            ("SI",   "Singapore",   "SGD"));
    ("Indonesia Stock Exchange",      ("JK",   "Indonesia",   "IDR"));
    ("Bursa Malaysia",                ("KLSE", "Malaysia",    "MYR"));
    ("Korea Exchange",                ("KO",   "Korea",       "KRW"));
    ("Korea KOSDAQ",                  ("KQ",   "Korea",       "KRW"));
    ("B3 Brasil Bolsa Balcao",        ("SA",   "Brazil",      "BRL"));
    ("Bolsa Mexicana de Valores",     ("MX",   "Mexico",      "MXN"));
    ("National Stock Exchange India", ("NS",   "India",       "INR"));
    ("Bombay Stock Exchange",         ("BO",   "India",       "INR"));
    ("Shanghai Stock Exchange",       ("SHG",  "China",       "CNY"));
    ("Shenzhen Stock Exchange",       ("SHE",  "China",       "CNY"));
    ("L",   ("LSE",  "UK",          "GBP"));
    ("TO",  ("TO",   "Canada",      "CAD"));
    ("V",   ("V",    "Canada",      "CAD"));
    ("F",   ("F",    "Germany",     "EUR"));
    ("DE",  ("XETRA","Germany",     "EUR"));
    ("PA",  ("PA",   "France",      "EUR"));
    ("AS",  ("AS",   "Netherlands", "EUR"));
    ("T",   ("T",    "Japan",       "JPY"));
    ("HK",  ("HK",   "Hong Kong",   "HKD"));
    ("SI",  ("SI",   "Singapore",   "SGD"));
    ("JK",  ("JK",   "Indonesia",   "IDR"));
    ("KL",  ("KLSE", "Malaysia",    "MYR"));
    ("KS",  ("KO",   "Korea",       "KRW"));
    ("KQ",  ("KQ",   "Korea",       "KRW"));
    ("SA",  ("SA",   "Brazil",      "BRL"));
    ("MX",  ("MX",   "Mexico",      "MXN"));
    ("NS",  ("NS",   "India",       "INR"));
    ("BO",  ("BO",   "India",       "INR"));
    ("SS",  ("SHG",  "China",       "CNY"));
    ("SZ",  ("SHE",  "China",       "CNY")) ].

(** [DOMESTIC_EXCHANGE_MAP] *)
Definition DOMESTIC_EXCHANGE_MAP : list (string * string) :=
  [ ("NAS", "NASDAQ"); ("OTC", "OTCMKTS") ].

(** [key in d] / [d[key]] on a dictionary literal *)
Fixpoint dict_get {V : Type} (d : list (string * V)) (key : string) : option V :=
  match d with
  | [] => None
  | (k, v) :: d' => if String.eqb k key then Some v else dict_get d' key
  end.

(** ** The concurrency budget *)

(** [_concurrency = {"max": ..., "active": ...}] *)
Record budget : Type := Budget { cmax : Z; active : Z }.

(** The state [main] installs before the workers start. *)
Definition initial_budget (workers : Z) : budget :=
  {| cmax := workers; active := 0 |}.

(** [_acquire_slot]: the caller waits on the condition while
    [active >= max]; [None] is "still waiting". *)
Definition _acquire_slot (b : budget) : option budget :=
  if active b >=? cmax b then None
  else Some {| cmax := cmax b; active := active b + 1 |}.

(** [_release_slot] *)
Definition _release_slot (b : budget) : budget :=
  {| cmax := cmax b; active := active b - 1 |}.

(** [_on_429] (the ticker is only printed) *)
Definition _on_429 (b : budget) : budget :=
  if cmax b >? 1 then {| cmax := cmax b - 1; active := active b |} else b.

(** ** The network and what a task does to the outside world *)

(** The three GET endpoints. *)
Inductive endpoint : Type :=
| CompanyInformation       (* /company-information *)
| IntlCompanyInformation   (* /international-company-information *)
| SecuritiesInformation.   (* /securities-information *)

Global Instance endpoint_eq_dec : EqDecision endpoint.
Proof. solve_decision. Defined.

(** A JSON value as the code reads it: a field is either falsy ([null],
    absent) or a string. *)
Inductive jvalue : Type :=
| JNull
| JStr (s : string).

(** The decoded body: an object, or a list wrapping objects. *)
Inductive body : Type :=
| JObject (d : gmap string jvalue)
| JArray (items : list (gmap string jvalue)).

(** What one [urlopen] call does: it returns a response with a status and a
    body, raises [HTTPError] with a code, or raises [URLError] (transport
    failure, connection timeout). *)
Inductive response : Type :=
| Response (status : Z) (data : body)
| HTTPError (code : Z)
| URLError.

(** The service, as one task sees it: the answer to the n-th request the task
    issues, given the endpoint and the identifier it asks for. *)
Definition network : Type := endpoint -> string -> nat -> response.

(** The observable steps of a task, in program order. *)
Inductive action : Type :=
| Acquire                                    (* _acquire_slot() returns *)
| Release                                    (* _release_slot() *)
| On429 (ticker : string)                    (* _on_429(ticker) *)
| Sleep (seconds : Z)                        (* time.sleep(seconds) *)
| Get (e : endpoint) (identifier : string).  (* urlopen(url, timeout=30) *)

Global Instance action_eq_dec : EqDecision action.
Proof. solve_decision. Defined.

(** A task's private state: how many requests it has issued, and its log. *)
Record tstate : Type := TState { calls : nat; log : list action }.

Definition tstate0 : tstate := {| calls := 0; log := [] |}.

(** Computations of a task. *)
Definition M (A : Type) : Type := tstate -> A * tstate.

Definition ret {A : Type} (a : A) : M A := fun s => (a, s).

Definition bind {A B : Type} (m : M A) (k : A -> M B) : M B :=
  fun s => let (a, s') := m s in k a s'.

Declare Scope task_scope.
Delimit Scope task_scope with task.
Notation "x <- m ;; k" := (bind m (fun x => k))
  (at level 100, m at next level, right associativity) : task_scope.
Notation "m ;; k" := (bind m (fun _ => k))
  (at level 100, right associativity) : task_scope.
Local Open Scope task_scope.

Definition emit (a : action) : M unit :=
  fun s => (tt, {| calls := calls s; log := log s ++ [a] |}).

(** [try: body finally: fin] for a body that does not raise past the
    handlers: [fin] runs after the body, whatever way the body leaves. *)
Definition try_finally {A : Type} (body : M A) (fin : M unit) : M A :=
  r <- body ;; fin ;; ret r.

(** How the body of a [for] iteration leaves: [return v] or [continue]. *)
Inductive ctl (A : Type) : Type :=
| Return (v : A)
| Continue.
Arguments Return {A} v.
Arguments Continue {A}.

Section Fetch.

Variable net : network.

(** [urllib.request.urlopen(url, timeout=30)] *)
Definition urlopen (e : endpoint) (identifier : string) : M response :=
  fun s => (net e identifier (calls s),
            {| calls := S (calls s); log := log s ++ [Get e identifier] |}).

(** The [try] block of [fetch_info] with its [except] clauses. *)
Definition fetch_info_try (e : endpoint) (ticker : string) (attempt : nat)
  : M (ctl (option (gmap string jvalue))) :=
  r <- urlopen e ticker ;;
  match r with
  | Response status data =>
      if negb (status =? 200)%Z then ret (Return None)
      else match data with
           | JArray items => ret (Return (head items))
           | JObject d => ret (Return (Some d))
           end
  | HTTPError code =>
      if (code =? 429)%Z then
        emit (On429 ticker) ;;
        emit (Sleep (2 ^ Z.of_nat attempt)) ;;
        ret Continue
      else ret (Return None)
  | URLError => ret (Return None)
  end.

(** [for attempt in ...:] of [fetch_info]; falling out of the loop is the
    "max retries reached" exit. *)
Fixpoint fetch_info_loop (e : endpoint) (ticker : string) (attempts : list nat)
  : M (option (gmap string jvalue)) :=
  match attempts with
  | [] => ret None
  | attempt :: attempts' =>
      emit Acquire ;;
      c <- try_finally (fetch_info_try e ticker attempt) (emit Release) ;;
      match c with
      | Return v => ret v
      | Continue => fetch_info_loop e ticker attempts'
      end
  end.

Definition fetch_info (ticker : string) (international : bool)
  : M (option (gmap string jvalue)) :=
  let path := if international then IntlCompanyInformation else CompanyInformation in
  fetch_info_loop path ticker (seq 0 4).

(** [d.get(key) or ""] *)
Definition get_or_empty (d : gmap string jvalue) (key : string) : string :=
  match d !! key with
  | Some (JStr s) => s
  | _ => ""
  end.

(** The [try] block of [fetch_isin_fallback] with its [except] clauses. *)
Definition fetch_isin_fallback_try (ticker : string) (attempt : nat)
  : M (ctl string) :=
  r <- urlopen SecuritiesInformation ticker ;;
  match r with
  | Response status data =>
      if negb (status =? 200)%Z then ret (Return "")
      else
        let d := match data with
                 | JArray items => default ∅ (head items)
                 | JObject d => d
                 end in
        ret (Return (PyStr.strip (get_or_empty d "isin_number")))
  | HTTPError code =>
      if (code =? 429)%Z then
        emit (On429 ticker) ;;
        emit (Sleep (2 ^ Z.of_nat attempt)) ;;
        ret Continue
      else ret (Return "")
  | URLError => ret (Return "")
  end.

Fixpoint fetch_isin_fallback_loop (ticker : string) (attempts : list nat)
  : M string :=
  match attempts with
  | [] => ret ""
  | attempt :: attempts' =>
      emit Acquire ;;
      c <- try_finally (fetch_isin_fallback_try ticker attempt) (emit Release) ;;
      match c with
      | Return v => ret v
      | Continue => fetch_isin_fallback_loop ticker attempts'
      end
  end.

Definition fetch_isin_fallback (ticker : string) : M string :=
  fetch_isin_fallback_loop ticker (seq 0 4).

End Fetch.

(** ** The per-row worker *)

(** [extract_isin_and_exchange] *)
Definition extract_isin_and_exchange (info : gmap string jvalue)
    (international : bool) : string * string :=
  let isin :=
    if international then get_or_empty info "isin_number"
    else PyStr.or_else (get_or_empty info "isin_number") (get_or_empty info "ISIN") in
  let exchange :=
    if international then get_or_empty info "exchange"
    else PyStr.or_else (get_or_empty info "trading_exchange") (get_or_empty info "exchange") in
  (PyStr.strip isin, PyStr.strip exchange).

(** [resolve_intl_exchange]: the full API name first, then the upper-cased
    ticker suffix; [None] if unrecognized. *)
Definition resolve_intl_exchange (api_exchange ticker : string)
  : option (string * string * string) :=
  match (if PyStr.truthy api_exchange
         then dict_get INTL_EXCHANGE_MAP api_exchange else None) with
  | Some triple => Some triple
  | None =>
      if PyStr.has_dot ticker
      then dict_get INTL_EXCHANGE_MAP (PyStr.upper (PyStr.rsplit_dot_last ticker))
      else None
  end.

(** The status strings ["enriched"], ["skipped"], ["no_data"]. *)
Inductive status : Type := Enriched | Skipped | NoData.

Global Instance status_eq_dec : EqDecision status.
Proof. solve_decision. Defined.

(** What [enrich_row] returns: [(row, status, unrecognized_exchanges)]; the
    last component is a dictionary literal with at most one key. *)
Definition result : Type :=
  gmap string string * status * list (string * list string).

(** [row.get(key, "")] *)
Definition row_get (row : gmap string string) (key : string) : string :=
  default "" (row !! key).

(** [bool(info)] for what [fetch_info] returns: [None] and the empty object
    are falsy. *)
Definition info_truthy (info : option (gmap string jvalue)) : bool :=
  match info with
  | Some d => negb (bool_decide (d = ∅))
  | None => false
  end.

Section Worker.

Variable net : network.

(** The branch of [enrich_row] taken when [info] is truthy. *)
Definition enrich_with_info (row : gmap string string)
    (info : gmap string jvalue) (ticker api_ticker original_exchange : string)
    (intl is_otc is_fd_us : bool) : M result :=
  let '(isin, api_exchange) := extract_isin_and_exchange info intl in
  isin <- (if negb (PyStr.truthy isin)
           then fetch_isin_fallback net api_ticker else ret isin) ;;
  let row := <["Isin" := isin]> row in
  let row := <["Ticker" := ticker]> row in
  if intl then
    match resolve_intl_exchange api_exchange api_ticker with
    | Some (exchange, country, currency) =>
        let row := <["Exchange" := exchange]> row in
        let row := <["Country" := country]> row in
        let row := <["Currency" := currency]> row in
        ret (row, Enriched, [])
    | None =>
        let raw := PyStr.or_else api_exchange "(none)" in
        ret (row, Enriched, [(raw, [ticker])])
    end
  else
    let api_exchange :=
      default api_exchange (dict_get DOMESTIC_EXCHANGE_MAP api_exchange) in
    let exchange :=
      PyStr.or_else api_exchange
        (if is_otc then "OTCMKTS" else if is_fd_us then "US" else original_exchange) in
    let row := <["Exchange" := exchange]> row in
    let row := <["Currency" := "USD"]> row in
    let row := <["Country" := "USA"]> row in
    ret (row, Enriched, []).

(** The branch of [enrich_row] taken when [info] is falsy. *)
Definition enrich_without_info (row : gmap string string)
    (ticker api_ticker : string) (is_otc is_fd_us : bool) : M result :=
  let row := if is_otc then <["Exchange" := "OTCMKTS"]> row
             else if is_fd_us then <["Exchange" := "US"]> row
             else row in
  isin <- fetch_isin_fallback net api_ticker ;;
  let row := if PyStr.truthy isin then <["Isin" := isin]> row else row in
  let row := <["Ticker" := ticker]> row in
  ret (row, NoData, []).

(** [enrich_row] *)
Definition enrich_row (row : gmap string string) : M result :=
  let ticker := PyStr.strip (row_get row "Ticker") in
  if negb (PyStr.truthy ticker) then ret (row, Skipped, [])
  else
    let original_exchange := PyStr.strip (row_get row "Exchange") in
    let intl := String.eqb original_exchange "FD_INTL" in
    let is_otc := String.eqb original_exchange "FD_OTC" in
    let is_fd_us := String.eqb original_exchange "FD_US" in
    let api_ticker := ticker in
    let ticker := if intl && PyStr.has_dot ticker
                  then PyStr.rsplit_dot_first ticker else ticker in
    info <- fetch_info net api_ticker intl ;;
    if info_truthy info
    then enrich_with_info row (default ∅ info) ticker api_ticker
           original_exchange intl is_otc is_fd_us
    else enrich_without_info row ticker api_ticker is_otc is_fd_us.

End Worker.

(** ** Dispatch and aggregation ([main]) *)

(** [rows[:k]] *)
Definition slice_to {A : Type} (l : list A) (k : Z) : list A :=
  if (k <? 0)%Z then take (Z.to_nat (Z.of_nat (length l) + k)) l
  else take (Z.to_nat k) l.

(** [rows] after [if args.limit is not None: rows = rows[: args.limit]] *)
Definition limit_rows {A : Type} (rows : list A) (limit : option Z) : list A :=
  match limit with
  | Some k => slice_to rows k
  | None => rows
  end.

Definition fieldnames : list string :=
  ["Ticker"; "Name"; "Exchange"; "Type"; "Currency"; "Country"; "Isin"].

(** A line of the output file: the header, or the values of one row in the
    order of [fieldnames] (a missing key is written as the empty string).
    Input rows come from a file with exactly these columns, so a row never
    has a key outside [fieldnames]. *)
Inductive line : Type :=
| HeaderLine (names : list string)
| RowLine (values : list string).

(** [writer.writerow(result_row)] *)
Definition writerow (outfile : list line) (row : gmap string string) : list line :=
  (outfile ++ [RowLine (map (row_get row) fieldnames)])%list.

(** [d.setdefault(exch, []).extend(tickers)] on an insertion-ordered
    dictionary. *)
Fixpoint setdefault_extend (d : list (string * list string)) (exch : string)
    (tickers : list string) : list (string * list string) :=
  match d with
  | [] => [(exch, tickers)]
  | (k, v) :: d' =>
      if String.eqb k exch then (k, (v ++ tickers)%list) :: d'
      else (k, v) :: setdefault_extend d' exch tickers
  end.

(** The variables of [main] that the completion loop updates. *)
Record summary : Type := Summary {
  enriched : Z;
  skipped : Z;
  all_unrecognized : list (string * list string);
  outfile : list line
}.

(** The state on entering the completion loop: counters at zero, header
    written. *)
Definition summary0 : summary :=
  {| enriched := 0; skipped := 0; all_unrecognized := [];
     outfile := [HeaderLine fieldnames] |}.

(** The body of [for future in as_completed(futures):] *)
Definition on_completed (s : summary) (r : result) : summary :=
  let '(result_row, st, unrecognized) := r in
  {| enriched := if decide (st = Enriched) then enriched s + 1 else enriched s;
     skipped := if decide (st = Enriched) then skipped s else skipped s + 1;
     all_unrecognized :=
       fold_left (fun d kv => setdefault_extend d (fst kv) (snd kv))
                 unrecognized (all_unrecognized s);
     outfile := writerow (outfile s) result_row |}.

(** The completion loop over the futures in the order they complete. *)
Definition main_loop (completed : list result) : summary :=
  fold_left on_completed completed summary0.

(** What task [i] (0-based) returns and does when the service answers it
    according to [nets i]. *)
Definition run_task (nets : nat -> network) (i : nat) (row : gmap string string)
  : result * tstate :=
  enrich_row (nets i) row tstate0.

(** The results of the submitted futures, in submission order. *)
Definition submitted (nets : nat -> network) (rows : list (gmap string string))
  : list result :=
  imap (fun i row => fst (run_task nets i row)) rows.

(** Rows of the output file that are not the header. *)
Definition data_rows (f : list line) : list (list string) :=
  omap (fun l => match l with RowLine v => Some v | HeaderLine _ => None end) f.

(** ** Tasks running against the shared budget *)

(** The effect of one action on the budget; [None]: the action cannot
    proceed in this state (the thread waits in [_acquire_slot]). *)
Definition exec (a : action) (b : budget) : option budget :=
  match a with
  | Acquire => _acquire_slot b
  | Release => Some (_release_slot b)
  | On429 _ => Some (_on_429 b)
  | Sleep _ => Some b
  | Get _ _ => Some b
  end.

(** A log replayed with no other thread running. *)
Fixpoint run_alone (l : list action) (b : budget) : option budget :=
  match l with
  | [] => Some b
  | a :: l' =>
      match exec a b with
      | Some b' => run_alone l' b'
      | None => None
      end
  end.

(** A future of the executor: whether a worker thread has picked it up, and
    the actions it still has to perform. *)
Record thread : Type := Thread { started : bool; todo : list action }.

(** The executor: the shared budget and the submitted futures. *)
Record pool : Type := Pool { shared : budget; threads : list thread }.

(** A future occupies a worker thread from its start to its last action. *)
Definition running (t : thread) : bool :=
  started t && negb (bool_decide (todo t = [])).

(** What task [i] does, in program order. *)
Definition task_program (nets : nat -> network) (i : nat)
    (row : gmap string string) : list action :=
  log (snd (run_task nets i row)).

(** [main] sets [_concurrency["max"] = args.workers] and submits one future
    per row. *)
Definition start_pool (workers : Z) (nets : nat -> network)
    (rows : list (gmap string string)) : pool :=
  {| shared := initial_budget workers;
     threads := imap (fun i row => Thread false (task_program nets i row)) rows |}.

(** One step of the executor with [workers] worker threads: an idle worker
    picks a queued future, or a running future performs its next action. *)
Inductive pool_step (workers : Z) : pool -> pool -> Prop :=
| step_start p i t :
    threads p !! i = Some t ->
    started t = false ->
    Z.of_nat (length (filter (fun t => running t = true) (threads p))) < workers ->
    pool_step workers p
      {| shared := shared p;
         threads := <[i := Thread true (todo t)]> (threads p) |}
| step_action p i a rest b' :
    threads p !! i = Some (Thread true (a :: rest)) ->
    exec a (shared p) = Some b' ->
    pool_step workers p
      {| shared := b'; threads := <[i := Thread true rest]> (threads p) |}.

(** States the executor can be in during a run. *)
Inductive reachable (workers : Z) (nets : nat -> network)
    (rows : list (gmap string string)) : pool -> Prop :=
| reach_start : reachable workers nets rows (start_pool workers nets rows)
| reach_step p p' :
    reachable workers nets rows p ->
    pool_step workers p p' ->
    reachable workers nets rows p'.

(** ** Vocabulary for logs *)

(** One rate-limited attempt, and one attempt that ends the loop. *)
Definition retry_block (e : endpoint) (ticker : string) (attempt : nat)
  : list action :=
  [Acquire; Get e ticker; On429 ticker; Sleep (2 ^ Z.of_nat attempt); Release].

Definition final_block (e : endpoint) (ticker : string) : list action :=
  [Acquire; Get e ticker; Release].

Definition is_429 (r : response) : bool :=
  match r with
  | HTTPError code => (code =? 429)%Z
  | _ => false
  end.

(** The attempts of [attempts] that are answered 429, when the first one is
    the task's request number [c]. *)
Fixpoint rate_limited (net : network) (e : endpoint) (ticker : string)
    (c : nat) (attempts : list nat) : list nat :=
  match attempts with
  | [] => []
  | k :: attempts' =>
      if is_429 (net e ticker c)
      then k :: rate_limited net e ticker (S c) attempts'
      else []
  end.

(** The log of a retry loop in which the attempts [retried] were answered
    429, out of [n] attempts allowed. *)
Definition attempts_log (e : endpoint) (ticker : string) (retried : list nat)
    (n : nat) : list action :=
  (concat (map (retry_block e ticker) retried)
     ++ (if (length retried <? n)%nat then final_block e ticker else []))%list.

(** Slots a log has taken and not given back. *)
Fixpoint slots_held (l : list action) : Z :=
  match l with
  | [] => 0
  | Acquire :: l' => 1 + slots_held l'
  | Release :: l' => slots_held l' - 1
  | _ :: l' => slots_held l'
  end.

(** A log is scoped when requests, 429 reports and sleeps happen only while
    the slot is held, a slot is acquired only when none is held, released
    only when one is held, and none is held at the end. *)
Fixpoint scoped (held : bool) (l : list action) : bool :=
  match l with
  | [] => negb held
  | Acquire :: l' => negb held && scoped true l'
  | Release :: l' => held && scoped false l'
  | _ :: l' => held && scoped held l'
  end.

(** Whether a thread with these actions left holds a slot. *)
Definition holding (l : list action) : bool :=
  match l with
  | [] => false
  | Acquire :: _ => false
  | _ :: _ => true
  end.

Definition sleeps (l : list action) : list Z :=
  omap (fun a => match a with Sleep d => Some d | _ => None end) l.

Definition requests (l : list action) : list (endpoint * string) :=
  omap (fun a => match a with Get e t => Some (e, t) | _ => None end) l.

Definition requests_to (e : endpoint) (l : list action) : nat :=
  length (filter (fun r => fst r = e) (requests l)).

(** What [fetch_info] returns for the response that ends its loop. *)
Definition info_of (r : response) : option (gmap string jvalue) :=
  match r with
  | Response status data =>
      if negb (status =? 200)%Z then None
      else match data with
           | JArray items => head items
           | JObject d => Some d
           end
  | _ => None
  end.

(** What [fetch_isin_fallback] returns for the response that ends its loop. *)
Definition isin_of (r : response) : string :=
  match r with
  | Response status data =>
      if negb (status =? 200)%Z then ""
      else PyStr.strip
             (get_or_empty (match data with
                            | JArray items => default ∅ (head items)
                            | JObject d => d
                            end) "isin_number")
  | _ => ""
  end.

(** ** Vocabulary for the statements, and the inputs they are tried on *)

(** The components of a result. *)
Definition result_row (r : result) : gmap string string := fst (fst r).
Definition result_status (r : result) : status := snd (fst r).
Definition result_unrecognized (r : result) : list (string * list string) := snd r.

(** Whether [enrich_row] goes on to [fetch_isin_fallback] after a primary
    fetch that returned [info]: the payload is missing, or it has no ISIN. *)
Definition needs_fallback (row : gmap string string)
    (info : option (gmap string jvalue)) : bool :=
  let intl := String.eqb (PyStr.strip (row_get row "Exchange")) "FD_INTL" in
  negb (info_truthy info)
  || negb (PyStr.truthy (fst (extract_isin_and_exchange (default ∅ info) intl))).

(** A service that answers every request with HTTP 429. *)
Definition always_429 : network := fun _ _ _ => HTTPError 429.

(** A service that answers every request with HTTP 500. *)
Definition always_500 : network := fun _ _ _ => HTTPError 500.

(** The domestic task of scenario C. *)
Definition task_AAA : gmap string string :=
  <["Ticker" := "AAA"]> (<["Exchange" := "FD_US"]> ∅).

(** An international task whose exchange the table does not know. *)
Definition task_XYZ : gmap string string :=
  <["Ticker" := "XYZ"]> (<["Exchange" := "FD_INTL"]> ∅).

(** A service whose primary endpoint answers with an ISIN and an unknown
    exchange name. *)
Definition unknown_exchange_service : network :=
  fun _ _ _ =>
    Response 200 (JObject (<["isin_number" := JStr "US1234567890"]>
                             (<["exchange" := JStr "Unknown Exchange"]> ∅))).

(** A row with a blank ticker. *)
Definition task_blank : gmap string string :=
  <["Ticker" := "  "]> (<["Exchange" := "FD_US"]> ∅).

(** The payload of scenario A. *)
Definition payload_SHEL : gmap string jvalue :=
  <["isin_number" := JStr "GB00BP6MXD84"]>
    (<["exchange" := JStr "London Stock Exchange"]> ∅).


(** Number of results with a given status. *)
Definition count_status (st : status) (l : list result) : Z :=
  Z.of_nat (length (filter (fun r => result_status r = st) l)).

(** Slots held by the futures of a pool. *)
Definition held_total (ts : list thread) : Z :=
  foldr (fun t acc => (if holding (todo t) then 1 else 0) + acc) 0 ts.

(** A future's remaining actions are scoped, and a future that has not
    started holds no slot. *)
Definition thread_ok (t : thread) : Prop :=
  scoped (holding (todo t)) (todo t) = true /\
  (started t = false -> holding (todo t) = false).

(** What holds of the executor in every state of a run with [workers]
    worker threads. *)
Definition pool_inv (workers : Z) (p : pool) : Prop :=
  active (shared p) = held_total (threads p) /\
  Forall thread_ok (threads p) /\
  active (shared p) <= workers /\
  1 <= cmax (shared p) <= workers.

(** A future is done when it has started and has no action left; the run
    is over when every future is done. *)
Definition done_thread (t : thread) : bool :=
  started t && bool_decide (todo t = []).

Definition finished (p : pool) : Prop :=
  Forall (fun t => done_thread t = true) (threads p).




(** One step of a schedule: start future [i], or let it perform its next
    action. *)
Inductive sched : Type :=
| Start (i : nat)
| Act (i : nat).

Definition do_sched (workers : Z) (c : sched) (p : pool) : option pool :=
  match c with
  | Start i =>
      match threads p !! i with
      | Some t =>
          if negb (started t)
             && (Z.of_nat (length (filter (fun t => running t = true) (threads p)))
                 <? workers)%Z
          then Some {| shared := shared p;
                       threads := <[i := Thread true (todo t)]> (threads p) |}
          else None
      | None => None
      end
  | Act i =>
      match threads p !! i with
      | Some (Thread true (a :: rest)) =>
          match exec a (shared p) with
          | Some b' => Some {| shared := b';
                               threads := <[i := Thread true rest]> (threads p) |}
          | None => None
          end
      | _ => None
      end
  end.

Fixpoint run_sched (workers : Z) (cs : list sched) (p : pool) : option pool :=
  match cs with
  | [] => Some p
  | c :: cs' =>
      match do_sched workers c p with
      | Some p' => run_sched workers cs' p'
      | None => None
      end
  end.

(** Two workers, two tasks that are answered 429: both futures start, both
    take a slot, the first one issues its request and reports the 429. *)
Definition overshoot_schedule : list sched :=
  [Start 0; Start 1; Act 0; Act 1; Act 0; Act 0]%nat.

Definition overshoot_pool : pool :=
  default (start_pool 2 (fun _ => always_429) [task_AAA; task_AAA])
    (run_sched 2 overshoot_schedule
       (start_pool 2 (fun _ => always_429) [task_AAA; task_AAA])).

(** ** Vocabulary for further properties of the worker *)

(** The fields [enrich_row] assigns. *)
Definition enriched_fields : list string :=
  ["Ticker"; "Isin"; "Exchange"; "Country"; "Currency"].

(** Calls of [_on_429] in a log, and the seconds it sleeps in total. *)
Definition on_429_calls (l : list action) : nat :=
  length (omap (fun a => match a with On429 t => Some t | _ => None end) l).

Definition total_sleep (l : list action) : Z :=
  foldr Z.add 0 (sleeps l).

(** The endpoint [fetch_info] queries. *)
Definition primary_endpoint (international : bool) : endpoint :=
  if international then IntlCompanyInformation else CompanyInformation.

(** The entries of [INTL_EXCHANGE_MAP]: a non-empty exchange code that is no
    routing marker, and a currency code of three letters. *)
Definition intl_entry_ok (kv : string * (string * string * string)) : bool :=
  let '(e, _, cur) := snd kv in
  negb (String.eqb e "") && negb (String.eqb e "FD_INTL")
  && negb (String.eqb e "FD_US") && negb (String.eqb e "FD_OTC")
  && Nat.eqb (String.length cur) 3.

(** The tickers the results report under the raw exchange value [k], in the
    order of the results, and whether any result reports [k]. *)
Definition diag_tickers (k : string) (rs : list result) : list string :=
  flat_map (fun r => flat_map (fun kv => if String.eqb (fst kv) k then snd kv else [])
                              (result_unrecognized r)) rs.

Definition diag_reported (k : string) (rs : list result) : bool :=
  existsb (fun r => existsb (fun kv => String.eqb (fst kv) k)
                            (result_unrecognized r)) rs.

(** [sum(len(v) for v in all_unrecognized.values())], the number of rows the
    final report of [main] announces. *)
Definition unrecognized_rows (d : list (string * list string)) : nat :=
  foldr (fun kv acc => (length (snd kv) + acc)%nat) 0%nat d.

(** Calls of [_on_429] the futures of a pool have still to make. *)
Definition pending_429 (ts : list thread) : nat :=
  foldr (fun t acc => (on_429_calls (todo t) + acc)%nat) 0%nat ts.

(** ** [load_dotenv] *)

Module Dotenv.

Definition is_char (c a : ascii) : bool := (N_of_ascii a =? N_of_ascii c)%N.

(** [s.lstrip(c)], [s.rstrip(c)] and [s.strip(c)] for a one-character [c] *)
Fixpoint lstrip_char (c : ascii) (s : string) : string :=
  match s with
  | EmptyString => EmptyString
  | String a s' => if is_char c a then lstrip_char c s' else s
  end.

Fixpoint rstrip_char (c : ascii) (s : string) : string :=
  match s with
  | EmptyString => EmptyString
  | String a s' =>
      match rstrip_char c s' with
      | EmptyString => if is_char c a then EmptyString else String a EmptyString
      | r => String a r
      end
  end.

Definition strip_char (c : ascii) (s : string) : string :=
  lstrip_char c (rstrip_char c s).

(** [line.startswith("#")] *)
Definition starts_with_hash (s : string) : bool :=
  match s with
  | String a _ => is_char "#" a
  | EmptyString => false
  end.

(** [line.partition("=")], [None] when ["=" not in line]: the text before
    the first equals sign and the text after it. *)
Fixpoint partition_eq (s : string) : option (string * string) :=
  match s with
  | EmptyString => None
  | String a s' =>
      if is_char "=" a then Some (EmptyString, s')
      else match partition_eq s' with
           | Some (key, value) => Some (String a key, value)
           | None => None
           end
  end.

(** The key and value a line of the file defines; [None] for the lines the
    loop skips with [continue]. *)
Definition parse_line (line : string) : option (string * string) :=
  let line := PyStr.strip line in
  if negb (PyStr.truthy line) || starts_with_hash line then None
  else match partition_eq line with
       | None => None
       | Some (key, value) =>
           Some (PyStr.strip key,
                 strip_char "'" (strip_char "034" (PyStr.strip value)))
       end.

(** The body of [for line in f:] on [os.environ]. *)
Definition set_default (env : gmap string string) (line : string)
  : gmap string string :=
  match parse_line line with
  | Some (key, value) =>
      if PyStr.truthy key
      then match env !! key with
           | None => <[key := value]> env
           | Some _ => env
           end
      else env
  | None => env
  end.

Definition read_env (lines : list string) (env : gmap string string)
  : gmap string string :=
  fold_left set_default lines env.

(** [load_dotenv]: [dirs] lists, from the directory of the script up to the
    root, the lines of the file [.env] of each directory that has one. *)
Fixpoint load_dotenv (dirs : list (option (list string)))
    (env : gmap string string) : gmap string string :=
  match dirs with
  | [] => env
  | Some lines :: _ => read_env lines env
  | None :: up => load_dotenv up env
  end.

End Dotenv.

(** ** [fetch_symbols.py]: the producer of the input file *)

Module FetchSymbols.

Definition PAGE_SIZE : nat := 500.

(** A value of the decoded page: a list of records, or anything else. *)
Inductive page_field : Type :=
| FieldList (records : list (gmap string jvalue))
| FieldOther.

(** The decoded body of a page: a list of records, or an object. *)
Inductive page_body : Type :=
| PageList (records : list (gmap string jvalue))
| PageObject (fields : gmap string page_field).

(** What [urlopen] does for a page: a response, or a [URLError] (which
    [HTTPError] is a subclass of). *)
Inductive page_response : Type :=
| PageResponse (status : Z) (data : page_body)
| PageURLError.

(** [for key in ("data", "results", "securities", "symbols"): ...] *)
Fixpoint first_list (keys : list string) (fields : gmap string page_field)
  : list (gmap string jvalue) :=
  match keys with
  | [] => []
  | key :: keys' =>
      match fields !! key with
      | Some (FieldList records) => records
      | _ => first_list keys' fields
      end
  end.

(** [fetch_page] against a service that answers the request for [path] at
    [offset] with [server path offset]. *)
Definition fetch_page (server : string -> nat -> page_response)
    (path : string) (offset : nat) : list (gmap string jvalue) :=
  match server path offset with
  | PageResponse status data =>
      if negb (status =? 200)%Z then []
      else match data with
           | PageList records => records
           | PageObject fields =>
               first_list ["data"; "results"; "securities"; "symbols"] fields
           end
  | PageURLError => []
  end.

(** The [while True:] loop of [fetch_all_records], run for at most [fuel]
    iterations; [None] when they do not suffice. *)
Fixpoint fetch_all_records_from (fuel : nat)
    (server : string -> nat -> page_response) (path : string)
    (first_page_only : bool) (offset : nat)
    (all_records : list (gmap string jvalue))
  : option (list (gmap string jvalue)) :=
  match fuel with
  | O => None
  | S fuel' =>
      let page := fetch_page server path offset in
      let all_records := (all_records ++ page)%list in
      if (length page <? PAGE_SIZE)%nat || first_page_only then Some all_records
      else fetch_all_records_from fuel' server path first_page_only
             (offset + PAGE_SIZE) all_records
  end.

Definition fetch_all_records (fuel : nat)
    (server : string -> nat -> page_response) (path : string)
    (first_page_only : bool) : option (list (gmap string jvalue)) :=
  fetch_all_records_from fuel server path first_page_only 0 [].

(** [extract_ticker]; [ticker_field] is [None] or a field name. *)
Definition extract_ticker (record : gmap string jvalue)
    (ticker_field : option string) : string :=
  let val :=
    match ticker_field with
    | Some field => if PyStr.truthy field then get_or_empty record field else ""
    | None => ""
    end in
  if PyStr.truthy val then PyStr.strip val
  else PyStr.strip
         (PyStr.or_else
            (PyStr.or_else
               (PyStr.or_else (get_or_empty record "ticker")
                              (get_or_empty record "symbol"))
               (get_or_empty record "trading_symbol"))
            (get_or_empty record "Ticker")).

Definition is_cr (a : ascii) : bool := (N_of_ascii a =? 13)%N.
Definition is_lf (a : ascii) : bool := (N_of_ascii a =? 10)%N.

(** [s.replace("\r\n", " ")] *)
Fixpoint replace_crlf (s : string) : string :=
  match s with
  | EmptyString => EmptyString
  | String a s' =>
      match s' with
      | String b s'' =>
          if is_cr a && is_lf b then String " " (replace_crlf s'')
          else String a (replace_crlf s')
      | EmptyString => String a EmptyString
      end
  end.

(** [s.replace(c, " ")] for the one-character strings ["\n"] and ["\r"] *)
Fixpoint replace_char (is_c : ascii -> bool) (s : string) : string :=
  match s with
  | EmptyString => EmptyString
  | String a s' => String (if is_c a then " "%char else a) (replace_char is_c s')
  end.

(** The name [write_csv] writes for a record. *)
Definition clean_name (record : gmap string jvalue) (name_field : string)
  : string :=
  let name := PyStr.or_else (get_or_empty record name_field)
                            (get_or_empty record "name") in
  PyStr.strip (replace_char is_cr (replace_char is_lf (replace_crlf name))).

(** The local variables of [write_csv] that its loop updates. *)
Record written_csv : Type := WrittenCsv {
  csv_file : list line;
  csv_written : Z;
  csv_skipped : Z
}.

(** The body of [for record in records:] *)
Definition write_record (name_field security_type exchange : string)
    (ticker_field : option string) (st : written_csv)
    (record : gmap string jvalue) : written_csv :=
  let ticker := extract_ticker record ticker_field in
  if negb (PyStr.truthy ticker)
  then {| csv_file := csv_file st; csv_written := csv_written st;
          csv_skipped := csv_skipped st + 1 |}
  else
    let name := clean_name record name_field in
    {| csv_file :=
         writerow (csv_file st)
           (<["Isin" := ""]> (<["Country" := ""]> (<["Currency" := ""]>
              (<["Type" := security_type]> (<["Exchange" := exchange]>
                 (<["Name" := name]> (<["Ticker" := ticker]> ∅)))))));
       csv_written := csv_written st + 1;
       csv_skipped := csv_skipped st |}.

(** [write_csv]: the file written, and the two counts it returns. *)
Definition write_csv (records : list (gmap string jvalue))
    (name_field security_type exchange : string)
    (ticker_field : option string) : written_csv :=
  fold_left (write_record name_field security_type exchange ticker_field)
    records
    {| csv_file := [HeaderLine fieldnames]; csv_written := 0; csv_skipped := 0 |}.

End FetchSymbols.

(** [list(csv.DictReader(infile))]: one dictionary per line after the
    header, keyed by the names of the header. *)
Definition read_csv (f : list line) : list (gmap string string) :=
  match f with
  | HeaderLine names :: rows =>
      omap (fun l => match l with
                     | RowLine values => Some (list_to_map (zip names values))
                     | HeaderLine _ => None
                     end) rows
  | _ => []
  end.

(** The line [write_csv] writes for a record with a ticker. *)
Definition symbol_line (name_field security_type exchange : string)
    (ticker_field : option string) (record : gmap string jvalue) : list string :=
  [FetchSymbols.extract_ticker record ticker_field;
   FetchSymbols.clean_name record name_field;
   exchange; security_type; ""; ""; ""].


(** A service with three records. *)
Definition three_symbols : list (gmap string jvalue) :=
  [ {["ticker" := JStr "A"]}; {["ticker" := JStr "B"]}; {["ticker" := JStr "C"]} ].

(** A service whose first page is full and whose next request fails. *)
Definition flaky_server (_ : string) (offset : nat) : FetchSymbols.page_response :=
  if (offset <? FetchSymbols.PAGE_SIZE)%nat
  then FetchSymbols.PageResponse 200
         (FetchSymbols.PageList
            (replicate FetchSymbols.PAGE_SIZE {["ticker" := JStr "SPY"]}))
  else FetchSymbols.PageURLError.

(** * The run as a whole, with the exceptions that reach [main]

    The definitions above follow a task through the outcomes its [except]
    clauses and its decoding provide for.  This module embeds the same
    functions of [enrich_company_info.py] once more, with what they let
    through: an exception of another class raised by a request, a payload
    of another shape, a row with a cell that is [None]; and then [main]
    itself, with its executor and its completion loop, where such an
    exception resurfaces ([future.result()]) and where [writerow] and
    [ThreadPoolExecutor] raise [ValueError]. *)

Module Raising.

(** ** Payloads of any shape *)

(** A JSON value under a key of an object: [null], a string, or a value of
    another type (number, boolean, list, object) with its truth value. *)
Inductive xvalue : Type :=
| XNull
| XStr (s : string)
| XOther (truth : bool).

(** A decoded document that is not a list, or an item of a list: an object,
    or any other value with its truth value. *)
Inductive xitem : Type :=
| XDict (d : gmap string xvalue)
| XNotDict (truth : bool).

(** What [json.loads] returns. *)
Inductive xbody : Type :=
| XItem (v : xitem)
| XList (items : list xitem).

(** What one request does: [urlopen] returns a response whose body, if the
    status is 200, reads and decodes to [data]; or it raises [HTTPError] or
    [URLError]; or [urlopen], [response.read()], [decode] or [json.loads]
    raise an exception of another class (a read timeout, a connection closed
    by the peer, a body that is not UTF-8 or not JSON). *)
Inductive outcome : Type :=
| XResponse (status : Z) (data : xbody)
| XHTTPError (code : Z)
| XURLError
| XOtherError.

Definition network : Type := endpoint -> string -> nat -> outcome.

(** The outcomes of the first embedding among these. *)
Definition served_value (v : jvalue) : xvalue :=
  match v with
  | JNull => XNull
  | JStr s => XStr s
  end.

Definition served_object (d : gmap string jvalue) : xitem :=
  XDict (served_value <$> d).

Definition served (r : response) : outcome :=
  match r with
  | Response status (JObject d) => XResponse status (XItem (served_object d))
  | Response status (JArray items) =>
      XResponse status (XList (map served_object items))
  | HTTPError code => XHTTPError code
  | URLError => XURLError
  end.

(** ** Computations that may raise *)

(** [None] is an exception on its way up; the state is the one reached when
    it was raised. *)
Definition M (A : Type) : Type := tstate -> option A * tstate.

Definition ret {A : Type} (a : A) : M A := fun s => (Some a, s).

Definition raise {A : Type} : M A := fun s => (None, s).

Definition bind {A B : Type} (m : M A) (k : A -> M B) : M B :=
  fun s =>
    match m s with
    | (Some a, s') => k a s'
    | (None, s') => (None, s')
    end.

Declare Scope raising_scope.
Delimit Scope raising_scope with raising.
Notation "x <- m ;; k" := (bind m (fun x => k))
  (at level 100, m at next level, right associativity) : raising_scope.
Notation "m ;; k" := (bind m (fun _ => k))
  (at level 100, right associativity) : raising_scope.
Local Open Scope raising_scope.

Definition emit (a : action) : M unit :=
  fun s => (Some tt, {| calls := calls s; log := log s ++ [a] |}).

(** [try: body finally: fin]: [fin] runs whichever way the body leaves, and
    an exception of the body goes on after it. *)
Definition try_finally {A : Type} (body : M A) (fin : M unit) : M A :=
  fun s =>
    match body s with
    | (r, s') =>
        match fin s' with
        | (Some _, s'') => (r, s'')
        | (None, s'') => (None, s'')
        end
    end.

(** [d.get(key)] *)
Definition get (d : gmap string xvalue) (key : string) : xvalue :=
  default XNull (d !! key).

(** [bool(v)] *)
Definition truthy (v : xvalue) : bool :=
  match v with
  | XNull => false
  | XStr s => PyStr.truthy s
  | XOther truth => truth
  end.

(** [a or b] *)
Definition or_else (a b : xvalue) : xvalue := if truthy a then a else b.

(** [v.strip()]: only a string has the method. *)
Definition strip (v : xvalue) : M string :=
  match v with
  | XStr s => ret (PyStr.strip s)
  | _ => raise
  end.

Section Fetch.

Variable net : network.

(** [urllib.request.urlopen(url, timeout=30)], with the reading and the
    decoding of the body. *)
Definition urlopen (e : endpoint) (identifier : string) : M outcome :=
  fun s => (Some (net e identifier (calls s)),
            {| calls := S (calls s); log := log s ++ [Get e identifier] |}).

(** The [try] block of [fetch_info] with its [except] clauses. *)
Definition fetch_info_try (e : endpoint) (ticker : string) (attempt : nat)
  : M (ctl (option xitem)) :=
  r <- urlopen e ticker ;;
  match r with
  | XResponse status data =>
      if negb (status =? 200)%Z then ret (Return None)
      else match data with
           | XList items => ret (Return (head items))
           | XItem v => ret (Return (Some v))
           end
  | XHTTPError code =>
      if (code =? 429)%Z then
        emit (On429 ticker) ;;
        emit (Sleep (2 ^ Z.of_nat attempt)) ;;
        ret Continue
      else ret (Return None)
  | XURLError => ret (Return None)
  | XOtherError => raise
  end.

Fixpoint fetch_info_loop (e : endpoint) (ticker : string) (attempts : list nat)
  : M (option xitem) :=
  match attempts with
  | [] => ret None
  | attempt :: attempts' =>
      emit Acquire ;;
      c <- try_finally (fetch_info_try e ticker attempt) (emit Release) ;;
      match c with
      | Return v => ret v
      | Continue => fetch_info_loop e ticker attempts'
      end
  end.

Definition fetch_info (ticker : string) (international : bool)
  : M (option xitem) :=
  let path := if international then IntlCompanyInformation else CompanyInformation in
  fetch_info_loop path ticker (seq 0 4).

(** The [try] block of [fetch_isin_fallback] with its [except] clauses;
    [data.get] and [.strip()] are inside it. *)
Definition fetch_isin_fallback_try (ticker : string) (attempt : nat)
  : M (ctl string) :=
  r <- urlopen SecuritiesInformation ticker ;;
  match r with
  | XResponse status data =>
      if negb (status =? 200)%Z then ret (Return "")
      else
        let v := match data with
                 | XList items => default (XDict ∅) (head items)
                 | XItem v => v
                 end in
        match v with
        | XDict d =>
            isin <- strip (or_else (get d "isin_number") (XStr "")) ;;
            ret (Return isin)
        | XNotDict _ => raise
        end
  | XHTTPError code =>
      if (code =? 429)%Z then
        emit (On429 ticker) ;;
        emit (Sleep (2 ^ Z.of_nat attempt)) ;;
        ret Continue
      else ret (Return "")
  | XURLError => ret (Return "")
  | XOtherError => raise
  end.

Fixpoint fetch_isin_fallback_loop (ticker : string) (attempts : list nat)
  : M string :=
  match attempts with
  | [] => ret ""
  | attempt :: attempts' =>
      emit Acquire ;;
      c <- try_finally (fetch_isin_fallback_try ticker attempt) (emit Release) ;;
      match c with
      | Return v => ret v
      | Continue => fetch_isin_fallback_loop ticker attempts'
      end
  end.

Definition fetch_isin_fallback (ticker : string) : M string :=
  fetch_isin_fallback_loop ticker (seq 0 4).

End Fetch.

(** [extract_isin_and_exchange]: [info.get] needs an object, [.strip()] a
    string. *)
Definition extract_isin_and_exchange (info : xitem) (international : bool)
  : M (string * string) :=
  match info with
  | XNotDict _ => raise
  | XDict d =>
      let isin :=
        if international then or_else (get d "isin_number") (XStr "")
        else or_else (or_else (get d "isin_number") (get d "ISIN")) (XStr "") in
      let exchange :=
        if international then or_else (get d "exchange") (XStr "")
        else or_else (or_else (get d "trading_exchange") (get d "exchange"))
               (XStr "") in
      isin <- strip isin ;;
      exchange <- strip exchange ;;
      ret (isin, exchange)
  end.

(** [bool(info)] for what [fetch_info] returns. *)
Definition info_truthy (info : option xitem) : bool :=
  match info with
  | Some (XDict d) => negb (bool_decide (d = ∅))
  | Some (XNotDict truth) => truth
  | None => false
  end.

(** ** Rows as [csv.DictReader] yields them *)

(** A cell is a string, or [None] where the line was shorter than the
    header; the cells of a line longer than the header are collected under
    the key [None], which is present only then. *)
Record xrow : Type := XRow {
  cells : gmap string (option string);
  overflow : list string
}.

Definition result : Type := xrow * status * list (string * list string).

(** [row[key] = value] *)
Definition set_cell (row : xrow) (key value : string) : xrow :=
  {| cells := <[key := Some value]> (cells row); overflow := overflow row |}.

(** [row.get(key, "").strip()] *)
Definition get_strip (row : xrow) (key : string) : M string :=
  match cells row !! key with
  | Some (Some s) => ret (PyStr.strip s)
  | Some None => raise
  | None => ret (PyStr.strip "")
  end.

Section Worker.

Variable net : network.

(** The branch of [enrich_row] taken when [info] is truthy. *)
Definition enrich_with_info (row : xrow) (info : xitem)
    (ticker api_ticker original_exchange : string)
    (intl is_otc is_fd_us : bool) : M result :=
  ie <- extract_isin_and_exchange info intl ;;
  let '(isin, api_exchange) := ie in
  isin <- (if negb (PyStr.truthy isin)
           then fetch_isin_fallback net api_ticker else ret isin) ;;
  let row := set_cell row "Isin" isin in
  let row := set_cell row "Ticker" ticker in
  if intl then
    match resolve_intl_exchange api_exchange api_ticker with
    | Some (exchange, country, currency) =>
        let row := set_cell row "Exchange" exchange in
        let row := set_cell row "Country" country in
        let row := set_cell row "Currency" currency in
        ret (row, Enriched, [])
    | None =>
        let raw := PyStr.or_else api_exchange "(none)" in
        ret (row, Enriched, [(raw, [ticker])])
    end
  else
    let api_exchange :=
      default api_exchange (dict_get DOMESTIC_EXCHANGE_MAP api_exchange) in
    let exchange :=
      PyStr.or_else api_exchange
        (if is_otc then "OTCMKTS" else if is_fd_us then "US" else original_exchange) in
    let row := set_cell row "Exchange" exchange in
    let row := set_cell row "Currency" "USD" in
    let row := set_cell row "Country" "USA" in
    ret (row, Enriched, []).

(** The branch of [enrich_row] taken when [info] is falsy. *)
Definition enrich_without_info (row : xrow)
    (ticker api_ticker : string) (is_otc is_fd_us : bool) : M result :=
  let row := if is_otc then set_cell row "Exchange" "OTCMKTS"
             else if is_fd_us then set_cell row "Exchange" "US"
             else row in
  isin <- fetch_isin_fallback net api_ticker ;;
  let row := if PyStr.truthy isin then set_cell row "Isin" isin else row in
  let row := set_cell row "Ticker" ticker in
  ret (row, NoData, []).

(** [enrich_row] *)
Definition enrich_row (row : xrow) : M result :=
  ticker <- get_strip row "Ticker" ;;
  if negb (PyStr.truthy ticker) then ret (row, Skipped, [])
  else
    original_exchange <- get_strip row "Exchange" ;;
    let intl := String.eqb original_exchange "FD_INTL" in
    let is_otc := String.eqb original_exchange "FD_OTC" in
    let is_fd_us := String.eqb original_exchange "FD_US" in
    let api_ticker := ticker in
    let ticker := if intl && PyStr.has_dot ticker
                  then PyStr.rsplit_dot_first ticker else ticker in
    info <- fetch_info net api_ticker intl ;;
    if info_truthy info
    then enrich_with_info row (default (XNotDict false) info) ticker api_ticker
           original_exchange intl is_otc is_fd_us
    else enrich_without_info row ticker api_ticker is_otc is_fd_us.

End Worker.

(** ** [main]: the executor and the completion loop *)

(** The text [csv.DictWriter] writes for a cell: [None] and a missing key
    are written as the empty string. *)
Definition cell_text (row : xrow) (key : string) : string :=
  default "" (mjoin (cells row !! key)).

(** [rowdict.keys() - fieldnames] is empty. *)
Definition no_wrong_fields (row : xrow) : bool :=
  bool_decide (map_Forall (fun key _ => key ∈ fieldnames) (cells row))
  && bool_decide (overflow row = []).

(** [writer.writerow(result_row)]: [DictWriter] raises [ValueError] for a
    row with a key outside [fieldnames]; [None] is that exception. *)
Definition writerow (outfile : list line) (row : xrow) : option (list line) :=
  if no_wrong_fields row
  then Some (outfile ++ [RowLine (map (cell_text row) fieldnames)])%list
  else None.

(** Where [main] is: in the completion loop, or left through an exception,
    with the counters and the file as they were then. *)
Inductive main_state : Type :=
| Looping (s : summary)
| Aborted (s : summary).

(** The body of [for future in as_completed(futures):] for a future whose
    worker returned [r], or raised ([None]): [future.result()] raises the
    worker's exception again. *)
Definition on_completed (s : summary) (r : option result) : main_state :=
  match r with
  | None => Aborted s
  | Some (result_row, st, unrecognized) =>
      let counted :=
        {| enriched := if decide (st = Enriched) then enriched s + 1 else enriched s;
           skipped := if decide (st = Enriched) then skipped s else skipped s + 1;
           all_unrecognized :=
             fold_left (fun d kv => setdefault_extend d (fst kv) (snd kv))
                       unrecognized (all_unrecognized s);
           outfile := outfile s |} in
      match writerow (outfile s) result_row with
      | Some f =>
          Looping {| enriched := enriched counted; skipped := skipped counted;
                     all_unrecognized := all_unrecognized counted;
                     outfile := f |}
      | None => Aborted counted
      end
  end.

(** What the future of task [i] holds once its worker is done, and what the
    worker does on the way, when the service answers it according to
    [service i]. *)
Definition future_result (service : nat -> network) (i : nat) (row : xrow)
  : option result :=
  fst (enrich_row (service i) row tstate0).



(** A run: the executor, the futures [as_completed] has yielded so far, in
    that order, and [main]. *)
Record run_state : Type := RunState {
  executor : pool;
  yielded : list nat;
  prog : main_state
}.


(** One step of a run: a step of the executor; or [as_completed] yields a
    future that is done and has not been yielded, and the loop body runs.
    After an exception in the loop the executor still finishes its futures
    ([shutdown(wait=True)]), and nothing more is written. *)
Inductive main_step (workers : Z) (service : nat -> network)
    (tasks : list xrow) : run_state -> run_state -> Prop :=
| step_worker st p' :
    pool_step workers (executor st) p' ->
    main_step workers service tasks st
      {| executor := p'; yielded := yielded st; prog := prog st |}
| step_completed st s i t row :
    prog st = Looping s ->
    threads (executor st) !! i = Some t ->
    done_thread t = true ->
    i ∉ yielded st ->
    tasks !! i = Some row ->
    main_step workers service tasks st
      {| executor := executor st;
         yielded := (yielded st ++ [i])%list;
         prog := on_completed s (future_result service i row) |}.



(** The file as it is in a state of the run. *)
Definition written (st : run_state) : list line :=
  match prog st with
  | Looping s => outfile s
  | Aborted s => outfile s
  end.

Definition aborted (st : run_state) : bool :=
  match prog st with
  | Looping _ => false
  | Aborted _ => true
  end.

(** The line of the file that belongs to task [i], if its worker returns a
    row. *)
Definition future_line (service : nat -> network) (tasks : list xrow) (i : nat)
  : option (list string) :=
  match tasks !! i with
  | Some row =>
      match future_result service i row with
      | Some (result_row, _, _) => Some (map (cell_text result_row) fieldnames)
      | None => None
      end
  | None => None
  end.






(** ** Vocabulary for the statements *)





















(** What holds in every state of a run in which no exception reaches
    [main]: the executor keeps its invariant and its futures, no future has
    been yielded twice, [main] is in its loop, and the rows of the file are
    the lines of the futures yielded, in that order. *)
Definition run_inv (workers : Z) (service : nat -> network)
    (tasks : list xrow) (st : run_state) : Prop :=
  pool_inv workers (executor st) /\
  length (threads (executor st)) = length tasks /\
  NoDup (yielded st) /\
  Forall (fun i => (i < length tasks)%nat) (yielded st) /\
  aborted st = false /\
  map Some (data_rows (written st))
    = map (future_line service tasks) (yielded st).

(** The executor has no future left to work on. *)
Definition all_done (st : run_state) : bool :=
  forallb done_thread (threads (executor st)).

End Raising.

(** * Properties *)

(** ** The string primitives and the lookup on a few inputs *)

Example strip_blanks : PyStr.strip "  BRK.B " = "BRK.B".
Proof. reflexivity. Qed.

Example rsplit_last_dot : PyStr.rsplit_dot "BT.A.L" = Some ("BT.A", "L").
Proof. reflexivity. Qed.

Example rsplit_no_dot : PyStr.rsplit_dot "AAA" = None.
Proof. reflexivity. Qed.

Example resolve_by_name :
  resolve_intl_exchange "Korea Exchange" "005930" = Some ("KO", "Korea", "KRW").
Proof. reflexivity. Qed.

Example resolve_by_suffix :
  resolve_intl_exchange "" "shel.l" = Some ("LSE", "UK", "GBP").
Proof. reflexivity. Qed.

Example resolve_unknown : resolve_intl_exchange "Unknown Exchange" "XYZ" = None.
Proof. reflexivity. Qed.

Example slice_negative : slice_to [1; 2; 3; 4] (-1) = [1; 2; 3].
Proof. reflexivity. Qed.

Example slice_beyond : slice_to [1; 2; 3; 4] 9 = [1; 2; 3; 4].
Proof. reflexivity. Qed.

(** ** The retry loops, step by step *)

(** Closes the equation between two outcomes of a loop once both sides are
    in normal form: the components agree up to arithmetic on the request
    counter. *)
Ltac loop_finish :=
  repeat match goal with
         | |- (_, _) = (_, _) => f_equal
         | |- TState _ _ = TState _ _ => f_equal
         | |- {| calls := _; log := _ |} = _ => f_equal
         end;
  try reflexivity; try lia.

Section Loops.

Variable net : network.

Lemma fetch_info_loop_run e t attempts s :
  let retried := rate_limited net e t (calls s) attempts in
  fetch_info_loop net e t attempts s =
    ((if (length retried <? length attempts)%nat
      then info_of (net e t (calls s + length retried)%nat) else None),
     {| calls := (calls s + length retried
                  + (if (length retried <? length attempts)%nat then 1 else 0))%nat;
        log := (log s ++ attempts_log e t retried (length attempts))%list |}).
Proof.
  revert s. induction attempts as [|k attempts IH]; intros s.
  - destruct s; cbn. rewrite !Nat.add_0_r, app_nil_r. reflexivity.
  - cbn [fetch_info_loop rate_limited].
    unfold bind, try_finally, fetch_info_try, urlopen, emit, bind, ret. cbn.
    destruct (net e t (calls s)) as [st d|code|] eqn:R; cbn.
    + rewrite Nat.add_0_r, R. unfold attempts_log. cbn.
      destruct (st =? 200)%Z; cbn; try destruct d; cbn;
        rewrite <- ?app_assoc; cbn; loop_finish.
    + destruct (code =? 429)%Z eqn:C; cbn.
      * rewrite IH. cbn.
        set (r := rate_limited net e t (S (calls s)) attempts).
        replace (S (length r) <? S (length attempts))%nat
          with (length r <? length attempts)%nat by reflexivity.
        unfold attempts_log. cbn.
        replace (S (length r) <? S (length attempts))%nat
          with (length r <? length attempts)%nat by reflexivity.
        rewrite <- !app_assoc. cbn.
        replace (calls s + S (length r))%nat with (S (calls s + length r)) by lia.
        loop_finish.
      * rewrite Nat.add_0_r, R. cbn. rewrite ?C. unfold attempts_log. cbn.
        rewrite <- ?app_assoc; cbn. loop_finish.
    + rewrite Nat.add_0_r, R. unfold attempts_log. cbn.
      rewrite <- ?app_assoc; cbn. loop_finish.
Qed.

Lemma fetch_isin_fallback_loop_run t attempts s :
  let retried := rate_limited net SecuritiesInformation t (calls s) attempts in
  fetch_isin_fallback_loop net t attempts s =
    ((if (length retried <? length attempts)%nat
      then isin_of (net SecuritiesInformation t (calls s + length retried)%nat)
      else ""),
     {| calls := (calls s + length retried
                  + (if (length retried <? length attempts)%nat then 1 else 0))%nat;
        log := (log s ++ attempts_log SecuritiesInformation t retried
                           (length attempts))%list |}).
Proof.
  revert s. induction attempts as [|k attempts IH]; intros s.
  - destruct s; cbn. rewrite !Nat.add_0_r, app_nil_r. reflexivity.
  - cbn [fetch_isin_fallback_loop rate_limited].
    unfold bind, try_finally, fetch_isin_fallback_try, urlopen, emit, bind, ret.
    cbn.
    destruct (net SecuritiesInformation t (calls s)) as [st d|code|] eqn:R; cbn.
    + rewrite Nat.add_0_r, R. unfold attempts_log. cbn.
      destruct (st =? 200)%Z; cbn; try destruct d; cbn;
        rewrite <- ?app_assoc; cbn; loop_finish.
    + destruct (code =? 429)%Z eqn:C; cbn.
      * rewrite IH. cbn.
        set (r := rate_limited net SecuritiesInformation t (S (calls s)) attempts).
        replace (S (length r) <? S (length attempts))%nat
          with (length r <? length attempts)%nat by reflexivity.
        unfold attempts_log. cbn.
        replace (S (length r) <? S (length attempts))%nat
          with (length r <? length attempts)%nat by reflexivity.
        rewrite <- !app_assoc. cbn.
        replace (calls s + S (length r))%nat with (S (calls s + length r)) by lia.
        loop_finish.
      * rewrite Nat.add_0_r, R. cbn. rewrite ?C. unfold attempts_log. cbn.
        rewrite <- ?app_assoc; cbn. loop_finish.
    + rewrite Nat.add_0_r, R. unfold attempts_log. cbn.
      rewrite <- ?app_assoc; cbn. loop_finish.
Qed.

Lemma fetch_info_run (t : string) (intl : bool) (s : tstate) :
  let e := if intl then IntlCompanyInformation else CompanyInformation in
  let retried := rate_limited net e t (calls s) (seq 0 4) in
  fetch_info net t intl s =
    ((if (length retried <? 4)%nat
      then info_of (net e t (calls s + length retried)%nat) else None),
     {| calls := (calls s + length retried
                  + (if (length retried <? 4)%nat then 1 else 0))%nat;
        log := (log s ++ attempts_log e t retried 4)%list |}).
Proof. unfold fetch_info. apply fetch_info_loop_run. Qed.

Lemma fetch_isin_fallback_run t s :
  let retried := rate_limited net SecuritiesInformation t (calls s) (seq 0 4) in
  fetch_isin_fallback net t s =
    ((if (length retried <? 4)%nat
      then isin_of (net SecuritiesInformation t (calls s + length retried)%nat)
      else ""),
     {| calls := (calls s + length retried
                  + (if (length retried <? 4)%nat then 1 else 0))%nat;
        log := (log s ++ attempts_log SecuritiesInformation t retried 4)%list |}).
Proof. unfold fetch_isin_fallback. apply fetch_isin_fallback_loop_run. Qed.

Lemma rate_limited_prefix e t c attempts :
  rate_limited net e t c attempts `prefix_of` attempts.
Proof.
  revert c. induction attempts as [|k attempts IH]; intros c; cbn.
  - reflexivity.
  - destruct (is_429 (net e t c)).
    + apply prefix_cons, IH.
    + apply prefix_nil.
Qed.



End Loops.

(** ** Logs of retry loops against the budget *)




Lemma scoped_blocks_app e t retried l :
  scoped false (concat (map (retry_block e t) retried) ++ l) = scoped false l.
Proof.
  induction retried as [|k retried IH]; cbn; [reflexivity|]. exact IH.
Qed.

Lemma scoped_attempts_log_app e t retried n l :
  scoped false (attempts_log e t retried n ++ l) = scoped false l.
Proof.
  unfold attempts_log. rewrite <- app_assoc, scoped_blocks_app.
  destruct (length retried <? n)%nat; reflexivity.
Qed.

Lemma scoped_holding h l : scoped h l = true -> holding l = h.
Proof.
  destruct l as [|a l]; cbn.
  - destruct h; cbn; congruence.
  - destruct a, h; cbn; congruence.
Qed.


Lemma exec_cmax a b b' :
  exec a b = Some b' ->
  cmax b' <= cmax b /\ (1 <= cmax b -> 1 <= cmax b').
Proof.
  destruct a; cbn; unfold _acquire_slot, _release_slot, _on_429;
    repeat case_match; intros [= <-]; cbn; lia.
Qed.







Lemma on_429_bounds b :
  cmax (_on_429 b) <= cmax b /\ (1 <= cmax b -> 1 <= cmax (_on_429 b)).
Proof. unfold _on_429. destruct (cmax b >? 1) eqn:E; cbn; lia. Qed.

Lemma on_429_iter_bounds b n :
  1 <= cmax b ->
  1 <= cmax (Nat.iter n _on_429 b) <= cmax b /\
  cmax (Nat.iter (S n) _on_429 b) <= cmax (Nat.iter n _on_429 b).
Proof.
  intros Hb. induction n as [|n [IH1 IH2]].
  - cbn. pose proof (on_429_bounds b). lia.
  - change (Nat.iter (S (S n)) _on_429 b)
      with (_on_429 (Nat.iter (S n) _on_429 b)).
    pose proof (on_429_bounds (Nat.iter (S n) _on_429 b)).
    change (Nat.iter (S n) _on_429 b) with (_on_429 (Nat.iter n _on_429 b)) in *.
    pose proof (on_429_bounds (Nat.iter n _on_429 b)). lia.
Qed.

Lemma run_alone_cmax l b b' :
  run_alone l b = Some b' ->
  cmax b' <= cmax b /\ (1 <= cmax b -> 1 <= cmax b').
Proof.
  revert b. induction l as [|a l IH]; intros b; cbn.
  - intros [= <-]. lia.
  - destruct (exec a b) as [b1|] eqn:E; [|discriminate].
    intros H. apply IH in H. apply exec_cmax in E. lia.
Qed.

(** ** Budget monotonicity *)

(** C3. For any sequence of [_on_429] calls the ceiling never increases and
    never drops below 1 (it starts at the worker count, at least 1): a call
    that observes a ceiling above 1 lowers it by exactly 1, a call that
    observes 1 leaves it unchanged; after any number of calls the ceiling is
    between 1 and its initial value and each further call does not raise it;
    the same bounds hold when the calls are interleaved with acquisitions,
    releases, requests and sleeps. *)
Theorem on_429_monotone_with_floor (b : budget) (n : nat) :
  1 <= cmax b ->
  (1 < cmax b -> cmax (_on_429 b) = cmax b - 1) /\
  (cmax b = 1 -> cmax (_on_429 b) = 1) /\
  active (_on_429 b) = active b /\
  1 <= cmax (Nat.iter n _on_429 b) <= cmax b /\
  cmax (Nat.iter (S n) _on_429 b) <= cmax (Nat.iter n _on_429 b) /\
  (forall l b', run_alone l b = Some b' -> 1 <= cmax b' <= cmax b).
Proof.
  intros Hb. repeat split.
  - intros H. unfold _on_429. destruct (cmax b >? 1) eqn:E; cbn; lia.
  - intros H. unfold _on_429. destruct (cmax b >? 1) eqn:E; cbn; lia.
  - unfold _on_429. destruct (cmax b >? 1); reflexivity.
  - apply on_429_iter_bounds, Hb.
  - apply on_429_iter_bounds, Hb.
  - apply (on_429_iter_bounds b n Hb).
  - apply run_alone_cmax in H. lia.
  - apply run_alone_cmax in H. lia.
Qed.

Lemma on_429_monotone_with_floor_witness :
  1 <= cmax (initial_budget 8) /\
  1 <= cmax (Nat.iter 10 _on_429 (initial_budget 8)) <= cmax (initial_budget 8).
Proof.
  split; [cbn; lia|].
  apply (on_429_monotone_with_floor (initial_budget 8) 10). cbn. lia.
Defined.

(** ** Backoff schedule *)

(** C5, evaluated on the code.  When every attempt of [fetch_info] is
    answered 429, the log is four rate-limited attempts: the sleeps are 1, 2,
    4 and 8 seconds, the last one after the fourth and final request, still
    holding the slot, and [fetch_info] then gives up. *)
Theorem fetch_info_sleeps_after_last_attempt (ticker : string) (intl : bool) :
  let e := if intl then IntlCompanyInformation else CompanyInformation in
  let r := fetch_info always_429 ticker intl tstate0 in
  fst r = None /\
  log (snd r) =
    [Acquire; Get e ticker; On429 ticker; Sleep 1; Release;
     Acquire; Get e ticker; On429 ticker; Sleep 2; Release;
     Acquire; Get e ticker; On429 ticker; Sleep 4; Release;
     Acquire; Get e ticker; On429 ticker; Sleep 8; Release] /\
  sleeps (log (snd r)) = [1; 2; 4; 8].
Proof.
  destruct intl; cbn; repeat split; reflexivity.
Qed.

(** ** Scoped acquisition *)



(** ** Requests issued by a retry loop *)

Lemma requests_to_app e l1 l2 :
  requests_to e (l1 ++ l2) = (requests_to e l1 + requests_to e l2)%nat.
Proof.
  unfold requests_to, requests. rewrite omap_app, filter_app, length_app.
  reflexivity.
Qed.

Lemma requests_to_blocks e' e t retried :
  requests_to e' (concat (map (retry_block e t) retried)) =
    if decide (e = e') then length retried else 0%nat.
Proof.
  induction retried as [|k retried IH].
  - cbn. destruct (decide (e = e')); reflexivity.
  - cbn [map concat length]. rewrite requests_to_app, IH.
    unfold requests_to, requests. cbn.
    destruct (decide (e = e')) as [->|Hne].
    + reflexivity.
    + reflexivity.
Qed.

Lemma requests_to_attempts_log e' e t retried n :
  requests_to e' (attempts_log e t retried n) =
    if decide (e = e')
    then (length retried + (if (length retried <? n)%nat then 1 else 0))%nat
    else 0%nat.
Proof.
  unfold attempts_log. rewrite requests_to_app, requests_to_blocks.
  destruct (length retried <? n)%nat.
  - unfold requests_to, requests. cbn.
    destruct (decide (e = e')) as [->|Hne].
    + reflexivity.
    + reflexivity.
  - destruct (decide (e = e')); cbn; lia.
Qed.

(** ** The worker, branch by branch *)

Section WorkerFacts.

Variable net : network.
Variable row : gmap string string.

Let ticker := PyStr.strip (row_get row "Ticker").
Let original_exchange := PyStr.strip (row_get row "Exchange").
Let intl := String.eqb original_exchange "FD_INTL".
Let is_otc := String.eqb original_exchange "FD_OTC".
Let is_fd_us := String.eqb original_exchange "FD_US".
Let out_ticker :=
  if intl && PyStr.has_dot ticker then PyStr.rsplit_dot_first ticker else ticker.

Lemma enrich_row_blank s :
  PyStr.truthy ticker = false ->
  enrich_row net row s = ((row, Skipped, []), s).
Proof.
  intros H. unfold enrich_row. fold ticker. rewrite H. reflexivity.
Qed.

Lemma enrich_row_nonblank s :
  PyStr.truthy ticker = true ->
  enrich_row net row s =
    let p := fetch_info net ticker intl s in
    if info_truthy (fst p)
    then enrich_with_info net row (default ∅ (fst p)) out_ticker ticker
           original_exchange intl is_otc is_fd_us (snd p)
    else enrich_without_info net row out_ticker ticker is_otc is_fd_us (snd p).
Proof.
  intros H. unfold enrich_row. fold ticker. rewrite H. cbn [negb].
  fold original_exchange. fold intl. fold is_otc. fold is_fd_us.
  fold out_ticker. unfold bind at 1.
  destruct (fetch_info net ticker intl s) as [info s1]. cbn [fst snd].
  destruct (info_truthy info); reflexivity.
Qed.

Lemma enrich_without_info_run t api s :
  enrich_without_info net row t api is_otc is_fd_us s =
    let p := fetch_isin_fallback net api s in
    let row1 := if is_otc then <["Exchange" := "OTCMKTS"]> row
                else if is_fd_us then <["Exchange" := "US"]> row
                else row in
    let row2 := if PyStr.truthy (fst p) then <["Isin" := fst p]> row1 else row1 in
    ((<["Ticker" := t]> row2, NoData, []), snd p).
Proof.
  unfold enrich_without_info, bind, ret.
  destruct (fetch_isin_fallback net api s) as [isin s2]. reflexivity.
Qed.

Lemma enrich_with_info_state info t api oe s :
  snd (enrich_with_info net row info t api oe intl is_otc is_fd_us s) =
    if PyStr.truthy (fst (extract_isin_and_exchange info intl)) then s
    else snd (fetch_isin_fallback net api s).
Proof.
  unfold enrich_with_info.
  destruct (extract_isin_and_exchange info intl) as [isin api_exchange].
  cbn [fst]. unfold bind, ret.
  destruct (PyStr.truthy isin); cbn [negb].
  - destruct intl; [destruct (resolve_intl_exchange api_exchange api)
                      as [[[? ?] ?]|]|]; reflexivity.
  - destruct (fetch_isin_fallback net api s) as [isin' s2].
    destruct intl; [destruct (resolve_intl_exchange api_exchange api)
                      as [[[? ?] ?]|]|]; reflexivity.
Qed.

Lemma enrich_with_info_status info t api oe s :
  result_status (fst (enrich_with_info net row info t api oe intl is_otc is_fd_us s))
    = Enriched.
Proof.
  unfold enrich_with_info.
  destruct (extract_isin_and_exchange info intl) as [isin api_exchange].
  unfold bind, ret.
  destruct (if negb (PyStr.truthy isin) then fetch_isin_fallback net api
            else fun s0 => (isin, s0)) as [isin' s2].
  destruct intl; [destruct (resolve_intl_exchange api_exchange api)
                    as [[[? ?] ?]|]|]; reflexivity.
Qed.

Lemma enrich_row_state s :
  PyStr.truthy ticker = true ->
  let p := fetch_info net ticker intl s in
  snd (enrich_row net row s) =
    if needs_fallback row (fst p)
    then snd (fetch_isin_fallback net ticker (snd p))
    else snd p.
Proof.
  intros H p. rewrite enrich_row_nonblank by exact H. fold p. cbn zeta.
  unfold needs_fallback. fold original_exchange. fold intl. cbn zeta.
  destruct (info_truthy (fst p)); cbn [negb orb].
  - rewrite enrich_with_info_state.
    destruct (PyStr.truthy (fst (extract_isin_and_exchange _ _))); reflexivity.
  - rewrite enrich_without_info_run. reflexivity.
Qed.

Lemma enrich_row_status s :
  PyStr.truthy ticker = true ->
  result_status (fst (enrich_row net row s)) =
    if info_truthy (fst (fetch_info net ticker intl s)) then Enriched else NoData.
Proof.
  intros H. rewrite enrich_row_nonblank by exact H. cbn zeta.
  destruct (info_truthy _).
  - apply enrich_with_info_status.
  - rewrite enrich_without_info_run. reflexivity.
Qed.

End WorkerFacts.

(** ** Retry bound *)



(** ** When the fallback endpoint is queried *)




(** ** Unresolved international exchanges *)



(** ** Scenario A *)

(** C9. An international task with ticker SHEL.L whose primary request is
    answered with ISIN GB00BP6MXD84 and exchange "London Stock Exchange":
    the request carries the qualified identifier SHEL.L and is the only one;
    the output row is the input row with Isin GB00BP6MXD84, Ticker SHEL,
    Exchange LSE, Country UK and Currency GBP; the status is [enriched] and
    there is no diagnostic. *)
Theorem scenario_SHEL (net : network) (row : gmap string string) :
  let r := enrich_row net row tstate0 in
  row !! "Ticker" = Some "SHEL.L" ->
  row !! "Exchange" = Some "FD_INTL" ->
  net IntlCompanyInformation "SHEL.L" 0%nat = Response 200 (JObject payload_SHEL) ->
  log (snd r) = [Acquire; Get IntlCompanyInformation "SHEL.L"; Release] /\
  result_row (fst r) =
    <["Currency" := "GBP"]> (<["Country" := "UK"]> (<["Exchange" := "LSE"]>
      (<["Ticker" := "SHEL"]> (<["Isin" := "GB00BP6MXD84"]> row)))) /\
  result_row (fst r) !! "Ticker" = Some "SHEL" /\
  result_row (fst r) !! "Isin" = Some "GB00BP6MXD84" /\
  result_row (fst r) !! "Exchange" = Some "LSE" /\
  result_row (fst r) !! "Country" = Some "UK" /\
  result_row (fst r) !! "Currency" = Some "GBP" /\
  result_status (fst r) = Enriched /\
  result_unrecognized (fst r) = [].
Proof.
  intros r HT HE Hnet.
  assert (Ht : PyStr.strip (row_get row "Ticker") = "SHEL.L")
    by (unfold row_get; rewrite HT; reflexivity).
  assert (He : PyStr.strip (row_get row "Exchange") = "FD_INTL")
    by (unfold row_get; rewrite HE; reflexivity).
  assert (Hp : fetch_info net "SHEL.L" true tstate0 =
               (Some payload_SHEL,
                {| calls := 1;
                   log := [Acquire; Get IntlCompanyInformation "SHEL.L"; Release] |})).
  { rewrite fetch_info_run. cbn [calls tstate0 seq rate_limited].
    rewrite Hnet. cbn [is_429 length Nat.ltb Nat.leb Nat.add].
    rewrite Hnet. reflexivity. }
  assert (Hr : r = ((<["Currency" := "GBP"]> (<["Country" := "UK"]>
                       (<["Exchange" := "LSE"]> (<["Ticker" := "SHEL"]>
                          (<["Isin" := "GB00BP6MXD84"]> row)))), Enriched, []),
                    {| calls := 1;
                       log := [Acquire; Get IntlCompanyInformation "SHEL.L";
                               Release] |})).
  { unfold r. rewrite enrich_row_nonblank by (rewrite Ht; reflexivity).
    rewrite Ht, He. change (String.eqb "FD_INTL" "FD_INTL") with true.
    cbn zeta. rewrite Hp. cbn [fst snd].
    change (info_truthy (Some payload_SHEL)) with true. cbn iota.
    unfold enrich_with_info.
    change (extract_isin_and_exchange (default ∅ (Some payload_SHEL)) true)
      with ("GB00BP6MXD84", "London Stock Exchange").
    reflexivity. }
  rewrite Hr. cbn [fst snd log result_row result_status result_unrecognized].
  repeat split; by simplify_map_eq.
Qed.

Lemma scenario_SHEL_witness :
  (<["Ticker" := "SHEL.L"]> (<["Exchange" := "FD_INTL"]> (∅ : gmap string string)))
    !! "Ticker" = Some "SHEL.L" /\
  map (row_get (result_row (fst (enrich_row (fun _ _ _ => Response 200 (JObject payload_SHEL))
         (<["Ticker" := "SHEL.L"]> (<["Exchange" := "FD_INTL"]> ∅)) tstate0))))
      fieldnames
    = ["SHEL"; ""; "LSE"; ""; "GBP"; "UK"; "GB00BP6MXD84"].
Proof.
  split; [reflexivity|].
  pose proof (scenario_SHEL (fun _ _ _ => Response 200 (JObject payload_SHEL))
                (<["Ticker" := "SHEL.L"]> (<["Exchange" := "FD_INTL"]> ∅))
                eq_refl eq_refl eq_refl) as (_ & Hrow & _).
  rewrite Hrow. reflexivity.
Defined.

(** ** The completion loop *)

Lemma count_status_cons st r l :
  count_status st (r :: l) =
    (if decide (result_status r = st) then 1 else 0) + count_status st l.
Proof.
  unfold count_status. rewrite filter_cons.
  destruct (decide (result_status r = st)); cbn [length]; lia.
Qed.

Lemma count_status_perm st l1 l2 :
  l1 ≡ₚ l2 -> count_status st l1 = count_status st l2.
Proof.
  induction 1 as [|x l l' _ IH|x y l|l l' l'' _ IH1 _ IH2].
  - reflexivity.
  - rewrite !count_status_cons. lia.
  - rewrite !count_status_cons. lia.
  - lia.
Qed.

Lemma count_status_total l :
  count_status Enriched l + count_status NoData l + count_status Skipped l
    = Z.of_nat (length l).
Proof.
  induction l as [|r l IH]; [reflexivity|].
  rewrite !count_status_cons. cbn [length].
  destruct r as [[row st] un].
  destruct st; cbn [result_status fst snd]; repeat case_decide;
    try congruence; lia.
Qed.

Lemma fold_on_completed completed s :
  let s' := fold_left on_completed completed s in
  enriched s' = enriched s + count_status Enriched completed /\
  skipped s' = skipped s + count_status NoData completed
                 + count_status Skipped completed /\
  outfile s' =
    (outfile s
       ++ map (fun r => RowLine (map (row_get (result_row r)) fieldnames))
            completed)%list.
Proof.
  revert s. induction completed as [|r completed IH]; intros s.
  - cbn. rewrite app_nil_r. unfold count_status. cbn.
    repeat split; try reflexivity; lia.
  - cbn [fold_left].
    destruct (IH (on_completed s r)) as (He & Hs & Ho).
    cbn zeta. rewrite He, Hs, Ho. rewrite !count_status_cons.
    destruct r as [[row st] un].
    unfold on_completed, writerow. cbn [enriched skipped outfile result_status
                                         result_row fst snd map].
    rewrite <- app_assoc. cbn [app].
    destruct st; cbn [result_status fst snd]; repeat case_decide;
      try congruence; repeat split; try reflexivity; lia.
Qed.

Lemma data_rows_written (rs : list result) :
  data_rows (HeaderLine fieldnames
               :: map (fun r => RowLine (map (row_get (result_row r)) fieldnames)) rs)
    = map (fun r => map (row_get (result_row r)) fieldnames) rs.
Proof.
  unfold data_rows. cbn [omap].
  induction rs as [|r rs IH]; [reflexivity|].
  cbn [map omap]. cbn. f_equal. exact IH.
Qed.


(** ** Summary counters *)

(** C10, counterexample.  One task with a blank ticker: no task has status
    [no_data], and the counter the summary prints as "No data/skipped" is 1. *)
Lemma no_data_counter_counts_skipped :
  count_status NoData (submitted (fun _ => always_500) [task_blank]) = 0 /\
  skipped (main_loop (submitted (fun _ => always_500) [task_blank])) = 1 /\
  skipped (main_loop (submitted (fun _ => always_500) [task_blank]))
    <> count_status NoData (submitted (fun _ => always_500) [task_blank]).
Proof.
  split; [reflexivity|]. split; [reflexivity|].
  vm_compute. discriminate.
Qed.

(** C10, amended.  At the end of the run the [enriched] counter is the number
    of tasks with status [enriched], and the other counter, printed as
    "No data/skipped", is the number of tasks with status [no_data] plus the
    number of tasks with status [skipped]; a task with a blank ticker
    returns its row unchanged with status [skipped], so it adds one to that
    second counter, and it issues no request and performs no action. *)
Theorem summary_counts (rows : list (gmap string string)) (limit : option Z)
    (nets : nat -> network) (completed : list result) :
  let tasks := limit_rows rows limit in
  completed ≡ₚ submitted nets tasks ->
  enriched (main_loop completed) = count_status Enriched (submitted nets tasks) /\
  skipped (main_loop completed) =
    count_status NoData (submitted nets tasks)
      + count_status Skipped (submitted nets tasks) /\
  (forall i row,
     tasks !! i = Some row ->
     PyStr.truthy (PyStr.strip (row_get row "Ticker")) = false ->
     run_task nets i row = ((row, Skipped, []), tstate0) /\
     submitted nets tasks !! i = Some (row, Skipped, [])).
Proof.
  intros tasks Hperm.
  destruct (fold_on_completed completed summary0) as (He & Hs & _).
  unfold main_loop. cbn zeta in He, Hs. rewrite He, Hs. cbn [summary0 enriched skipped].
  rewrite !(count_status_perm _ _ _ Hperm).
  split; [lia|]. split; [lia|].
  intros i row Hi Hblank.
  assert (Hrun : run_task nets i row = ((row, Skipped, []), tstate0))
    by (unfold run_task; apply enrich_row_blank; exact Hblank).
  split; [exact Hrun|].
  unfold submitted. rewrite list_lookup_imap, Hi. cbn. rewrite Hrun. reflexivity.
Qed.

Lemma summary_counts_witness :
  submitted (fun _ => always_500) (limit_rows [task_AAA; task_blank] None)
    ≡ₚ submitted (fun _ => always_500) (limit_rows [task_AAA; task_blank] None) /\
  enriched (main_loop (submitted (fun _ => always_500)
                         (limit_rows [task_AAA; task_blank] None))) = 0 /\
  skipped (main_loop (submitted (fun _ => always_500)
                        (limit_rows [task_AAA; task_blank] None))) = 2.
Proof.
  split; [reflexivity|].
  pose proof (summary_counts [task_AAA; task_blank] None (fun _ => always_500)
                _ (reflexivity _)) as (He & Hs & _).
  split; [rewrite He | rewrite Hs]; reflexivity.
Defined.

(** ** Admission safety *)

Lemma do_sched_step workers c p p' :
  do_sched workers c p = Some p' -> pool_step workers p p'.
Proof.
  destruct c as [i|i]; cbn.
  - destruct (threads p !! i) as [t|] eqn:L; [|discriminate].
    destruct (negb (started t)) eqn:S1; [|discriminate].
    destruct (_ <? workers)%Z eqn:S2; [|discriminate].
    cbn. intros [= <-]. eapply step_start; [exact L| |lia].
    destruct (started t); [discriminate|reflexivity].
  - destruct (threads p !! i) as [[[] [|a rest]]|] eqn:L; try discriminate.
    destruct (exec a (shared p)) as [b'|] eqn:E; [|discriminate].
    intros [= <-]. eapply step_action; eassumption.
Qed.

Lemma run_sched_reachable workers nets rows cs p p' :
  reachable workers nets rows p ->
  run_sched workers cs p = Some p' ->
  reachable workers nets rows p'.
Proof.
  revert p. induction cs as [|c cs IH]; intros p Hp; cbn.
  - intros [= <-]. exact Hp.
  - destruct (do_sched workers c p) as [p1|] eqn:D; [|discriminate].
    apply IH. eapply reach_step; [exact Hp|]. exact (do_sched_step _ _ _ _ D).
Qed.

Lemma held_total_cons t ts :
  held_total (t :: ts) = (if holding (todo t) then 1 else 0) + held_total ts.
Proof. reflexivity. Qed.

Lemma held_total_nonneg ts : 0 <= held_total ts.
Proof.
  induction ts as [|t ts IH]; [reflexivity|].
  rewrite held_total_cons. destruct (holding (todo t)); lia.
Qed.

Lemma held_total_insert ts i t t' :
  ts !! i = Some t ->
  held_total (<[i := t']> ts) =
    held_total ts - (if holding (todo t) then 1 else 0)
      + (if holding (todo t') then 1 else 0).
Proof.
  revert i. induction ts as [|x ts IH]; intros i H; [discriminate|].
  destruct i as [|i].
  - injection H as ->. change (<[0%nat:=t']> (t :: ts)) with (t' :: ts).
    rewrite !held_total_cons. lia.
  - change (ts !! i = Some t) in H.
    change (<[S i:=t']> (x :: ts)) with (x :: <[i:=t']> ts).
    rewrite !held_total_cons, (IH i H). lia.
Qed.

Lemma held_total_idle ts :
  Forall (fun t => holding (todo t) = false) ts -> held_total ts = 0.
Proof.
  induction 1 as [|t ts Ht _ IH]; [reflexivity|].
  rewrite held_total_cons, Ht, IH. reflexivity.
Qed.

Lemma task_program_scoped nets i row :
  scoped false (task_program nets i row) = true.
Proof.
  unfold task_program, run_task.
  destruct (PyStr.truthy (PyStr.strip (row_get row "Ticker"))) eqn:H.
  - rewrite enrich_row_state by exact H. cbn zeta.
    destruct (needs_fallback _ _).
    + rewrite fetch_isin_fallback_run, fetch_info_run. cbn [snd log tstate0 app].
      rewrite scoped_attempts_log_app.
      rewrite <- (app_nil_r (attempts_log _ _ _ _)).
      apply scoped_attempts_log_app.
    + rewrite fetch_info_run. cbn [snd log tstate0 app].
      rewrite <- (app_nil_r (attempts_log _ _ _ _)).
      apply scoped_attempts_log_app.
  - rewrite enrich_row_blank by exact H. reflexivity.
Qed.

Lemma start_pool_inv workers nets rows :
  1 <= workers -> pool_inv workers (start_pool workers nets rows).
Proof.
  intros Hw. unfold pool_inv, start_pool. cbn [shared threads initial_budget
                                                 cmax active].
  assert (F : Forall (fun t => scoped false (todo t) = true)
                (imap (fun i row => Thread false (task_program nets i row)) rows)).
  { apply Forall_lookup. intros i t. rewrite list_lookup_imap.
    destruct (rows !! i) as [row|]; [|discriminate].
    cbn. intros [= <-]. apply task_program_scoped. }
  split; [|split; [|lia]].
  - symmetry. apply held_total_idle.
    eapply Forall_impl; [exact F|]. cbn. intros t Ht.
    apply scoped_holding in Ht. exact Ht.
  - eapply Forall_impl; [exact F|]. cbn. intros t Ht. unfold thread_ok.
    rewrite (scoped_holding _ _ Ht). split; [exact Ht | reflexivity].
Qed.

Lemma pool_step_inv workers p p' :
  pool_inv workers p -> pool_step workers p p' -> pool_inv workers p'.
Proof.
  intros (Ha & Hf & Hw & Hm) Hstep.
  destruct Hstep as [p i t L _ _|p i a rest b' L E];
    unfold pool_inv; cbn [shared threads].
  - pose proof (proj1 (Forall_lookup _ _) Hf i t L) as [Ht _].
    rewrite (held_total_insert _ _ _ _ L). cbn [todo].
    split; [lia|]. split; [|lia].
    apply Forall_insert; [exact Hf | split; [exact Ht | discriminate]].
  - pose proof (proj1 (Forall_lookup _ _) Hf i _ L) as [Ht _]. cbn [todo] in Ht.
    rewrite (held_total_insert _ _ _ _ L). cbn [todo].
    pose proof (held_total_nonneg (threads p)) as Hn.
    destruct a; cbn in Ht, E |- *.
    + (* Acquire *)
      pose proof (scoped_holding _ _ Ht) as Hh.
      unfold _acquire_slot in E.
      destruct (active (shared p) >=? cmax (shared p)) eqn:G; [discriminate|].
      injection E as <-. cbn [active cmax]. rewrite Hh.
      split; [lia|]. split; [|lia].
      apply Forall_insert; [exact Hf|].
      split; [cbn [todo]; rewrite Hh; exact Ht | discriminate].
    + (* Release *)
      pose proof (scoped_holding _ _ Ht) as Hh.
      injection E as <-. unfold _release_slot. cbn [active cmax]. rewrite Hh.
      split; [lia|]. split; [|lia].
      apply Forall_insert; [exact Hf|].
      split; [cbn [todo]; rewrite Hh; exact Ht | discriminate].
    + (* On429 *)
      pose proof (scoped_holding _ _ Ht) as Hh.
      injection E as <-. pose proof (on_429_bounds (shared p)) as Hb.
      assert (Hact : active (_on_429 (shared p)) = active (shared p))
        by (unfold _on_429; destruct (cmax (shared p) >? 1); reflexivity).
      rewrite Hact, Hh.
      split; [lia|]. split; [|lia].
      apply Forall_insert; [exact Hf|].
      split; [cbn [todo]; rewrite Hh; exact Ht | discriminate].
    + (* Sleep *)
      pose proof (scoped_holding _ _ Ht) as Hh.
      injection E as <-. rewrite Hh.
      split; [lia|]. split; [|lia].
      apply Forall_insert; [exact Hf|].
      split; [cbn [todo]; rewrite Hh; exact Ht | discriminate].
    + (* Get *)
      pose proof (scoped_holding _ _ Ht) as Hh.
      injection E as <-. rewrite Hh.
      split; [lia|]. split; [|lia].
      apply Forall_insert; [exact Hf|].
      split; [cbn [todo]; rewrite Hh; exact Ht | discriminate].
Qed.

Lemma reachable_inv workers nets rows p :
  1 <= workers -> reachable workers nets rows p -> pool_inv workers p.
Proof.
  intros Hw. induction 1 as [|p p' _ IH Hstep].
  - apply start_pool_inv, Hw.
  - eapply pool_step_inv; eassumption.
Qed.

Lemma overshoot_pool_reachable :
  reachable 2 (fun _ => always_429) [task_AAA; task_AAA] overshoot_pool.
Proof.
  eapply run_sched_reachable with (cs := overshoot_schedule); [apply reach_start|].
  vm_compute. reflexivity.
Qed.

(** C2, counterexample.  With two workers and two tasks whose first request
    is answered 429, the state after both futures have taken a slot and one
    of them has called [_on_429] is reachable; there [active] is 2 and the
    ceiling is 1. *)
Lemma active_exceeds_limit_after_429 :
  reachable 2 (fun _ => always_429) [task_AAA; task_AAA] overshoot_pool /\
  active (shared overshoot_pool) = 2 /\
  cmax (shared overshoot_pool) = 1 /\
  ~ (0 <= active (shared overshoot_pool) <= cmax (shared overshoot_pool)).
Proof.
  split; [apply overshoot_pool_reachable|].
  split; [reflexivity|]. split; [reflexivity|].
  vm_compute. intros [_ H]. apply H. reflexivity.
Qed.

(** C2, amended.  In every state of a run with at least one worker,
    [active] is between 0 and the worker count and the ceiling is between 1
    and the worker count.  [_acquire_slot] admits a caller only below the
    ceiling, so [active] is at most the ceiling right after it; and a step
    that does not lower the ceiling keeps [active] at most the ceiling.
    (A call of [_on_429] by a thread that holds a slot lowers the ceiling
    without touching [active], which can leave [active] above it.) *)
Theorem budget_bounds (workers : Z) (nets : nat -> network)
    (rows : list (gmap string string)) (p : pool) :
  1 <= workers ->
  reachable workers nets rows p ->
  0 <= active (shared p) <= workers /\
  1 <= cmax (shared p) <= workers /\
  (forall b', _acquire_slot (shared p) = Some b' -> active b' <= cmax b') /\
  (forall p', pool_step workers p p' ->
     active (shared p) <= cmax (shared p) ->
     cmax (shared p') = cmax (shared p) ->
     active (shared p') <= cmax (shared p')).
Proof.
  intros Hw Hp. destruct (reachable_inv _ _ _ _ Hw Hp) as (Ha & _ & Hle & Hm).
  pose proof (held_total_nonneg (threads p)) as Hn.
  split; [lia|]. split; [lia|]. split.
  - intros b'. unfold _acquire_slot.
    destruct (active (shared p) >=? cmax (shared p)) eqn:G; [discriminate|].
    intros [= <-]. cbn. lia.
  - intros p' Hstep Hac Hc.
    destruct Hstep as [p i t _ _ _|p i a rest b' _ E]; cbn [shared] in *.
    + exact Hac.
    + destruct a; cbn in E.
      * unfold _acquire_slot in E.
        destruct (active (shared p) >=? cmax (shared p)) eqn:G; [discriminate|].
        injection E as <-. cbn. lia.
      * injection E as <-. cbn. lia.
      * injection E as <-. rewrite Hc.
        unfold _on_429. destruct (cmax (shared p) >? 1); cbn; lia.
      * injection E as <-. exact Hac.
      * injection E as <-. exact Hac.
Qed.

Lemma budget_bounds_witness :
  1 <= 2 /\
  reachable 2 (fun _ => always_429) [task_AAA; task_AAA] overshoot_pool /\
  0 <= active (shared overshoot_pool) <= 2 /\
  1 <= cmax (shared overshoot_pool) <= 2.
Proof.
  split; [lia|]. split; [apply overshoot_pool_reachable|].
  pose proof (budget_bounds 2 (fun _ => always_429) [task_AAA; task_AAA]
                overshoot_pool ltac:(lia) overshoot_pool_reachable)
    as (Ha & Hm & _).
  split; [exact Ha | exact Hm].
Defined.

(** ** Every run finishes *)







(** * Further properties *)

(** ** What the worker writes and what it leaves alone *)

Lemma not_enriched_field k :
  k ∉ enriched_fields ->
  k <> "Ticker" /\ k <> "Isin" /\ k <> "Exchange" /\ k <> "Country"
  /\ k <> "Currency".
Proof.
  unfold enriched_fields. rewrite !not_elem_of_cons. tauto.
Qed.

Lemma enrich_with_info_frame net row info t api oe intl otc us s k :
  k ∉ enriched_fields ->
  result_row (fst (enrich_with_info net row info t api oe intl otc us s)) !! k
    = row !! k.
Proof.
  intros Hk. apply not_enriched_field in Hk as (H1 & H2 & H3 & H4 & H5).
  unfold enrich_with_info.
  destruct (extract_isin_and_exchange info intl) as [isin api_exchange].
  unfold bind, ret.
  destruct ((if negb (PyStr.truthy isin) then fetch_isin_fallback net api
             else fun s0 => (isin, s0)) s) as [isin' s2].
  destruct intl; [destruct (resolve_intl_exchange api_exchange api)
                    as [[[? ?] ?]|]|];
    cbn [fst snd result_row]; rewrite ?lookup_insert_ne by congruence;
    reflexivity.
Qed.

Lemma enrich_without_info_frame net row t api otc us s k :
  k ∉ enriched_fields ->
  result_row (fst (enrich_without_info net row t api otc us s)) !! k = row !! k.
Proof.
  intros Hk. apply not_enriched_field in Hk as (H1 & H2 & H3 & H4 & H5).
  unfold enrich_without_info, bind, ret.
  destruct (fetch_isin_fallback net api _) as [isin s2].
  cbn [fst snd result_row].
  destruct otc, us, (PyStr.truthy isin);
    rewrite ?lookup_insert_ne by congruence; reflexivity.
Qed.

(** X1. [enrich_row] assigns only the fields Ticker, Isin, Exchange,
    Country and Currency: every other key of the row (Name, Type, ...) has
    the same value, or the same absence, in the row it returns.  So a row
    whose keys are among the columns of the output file stays so, and
    [writerow] never meets a key outside [fieldnames]. *)
Theorem enrich_row_assigns_enrichment_fields_only (net : network)
    (row : gmap string string) (s : tstate) :
  (forall k, k ∉ enriched_fields ->
     result_row (fst (enrich_row net row s)) !! k = row !! k) /\
  (dom row ⊆ (list_to_set fieldnames : gset string) ->
   dom (result_row (fst (enrich_row net row s)))
     ⊆ (list_to_set fieldnames : gset string)).
Proof.
  assert (F : forall k, k ∉ enriched_fields ->
                result_row (fst (enrich_row net row s)) !! k = row !! k).
  { intros k Hk.
    destruct (PyStr.truthy (PyStr.strip (row_get row "Ticker"))) eqn:Ht.
    - rewrite enrich_row_nonblank by exact Ht. cbn zeta.
      destruct (info_truthy _).
      + apply enrich_with_info_frame, Hk.
      + apply enrich_without_info_frame, Hk.
    - rewrite enrich_row_blank by exact Ht. reflexivity. }
  split; [exact F|].
  intros Hsub k Hin. apply elem_of_dom in Hin.
  destruct (decide (k ∈ enriched_fields)) as [Hk|Hk].
  - unfold enriched_fields in Hk. rewrite !elem_of_cons in Hk.
    rewrite elem_of_list_to_set. unfold fieldnames. rewrite !elem_of_cons.
    tauto.
  - rewrite (F k Hk) in Hin. apply Hsub, elem_of_dom, Hin.
Qed.

Lemma enrich_row_assigns_enrichment_fields_only_witness :
  dom task_AAA ⊆ (list_to_set fieldnames : gset string) /\
  dom (result_row (fst (enrich_row always_500 task_AAA tstate0)))
    ⊆ (list_to_set fieldnames : gset string).
Proof.
  assert (H : dom task_AAA ⊆ (list_to_set fieldnames : gset string)).
  { unfold task_AAA. rewrite !dom_insert_L, dom_empty_L.
    unfold fieldnames. intros k. rewrite elem_of_list_to_set, !elem_of_cons.
    rewrite !elem_of_union, !elem_of_singleton, elem_of_empty. tauto. }
  split; [exact H|].
  apply (enrich_row_assigns_enrichment_fields_only always_500 task_AAA tstate0), H.
Defined.

(** ** Domestic rows *)




(** ** Rows without data *)



(** ** What a task asks of the service *)

Lemma requests_app l1 l2 : requests (l1 ++ l2) = (requests l1 ++ requests l2)%list.
Proof. unfold requests. apply omap_app. Qed.

Lemma requests_attempts_log e t retried n :
  Forall (fun r => r = (e, t)) (requests (attempts_log e t retried n)).
Proof.
  unfold attempts_log. rewrite requests_app. apply Forall_app. split.
  - induction retried as [|k retried IH]; [constructor|].
    cbn [map concat]. rewrite requests_app. apply Forall_app.
    split; [|exact IH]. cbn. repeat constructor.
  - destruct (length retried <? n)%nat; cbn; repeat constructor.
Qed.

(** The log of a task, in terms of the two retry loops. *)
Lemma enrich_row_log net (row : gmap string string) :
  let ticker := PyStr.strip (row_get row "Ticker") in
  let intl := String.eqb (PyStr.strip (row_get row "Exchange")) "FD_INTL" in
  exists r1 r2 : list nat,
    r1 `prefix_of` [0; 1; 2; 3]%nat /\ r2 `prefix_of` [0; 1; 2; 3]%nat /\
    (log (snd (enrich_row net row tstate0)) = []
     \/ log (snd (enrich_row net row tstate0))
          = attempts_log (primary_endpoint intl) ticker r1 4
     \/ log (snd (enrich_row net row tstate0))
          = (attempts_log (primary_endpoint intl) ticker r1 4
               ++ attempts_log SecuritiesInformation ticker r2 4)%list).
Proof.
  intros ticker intl.
  destruct (PyStr.truthy ticker) eqn:Ht.
  - pose proof (enrich_row_state net row tstate0 Ht) as Hs. cbn zeta in Hs.
    fold ticker in Hs. fold intl in Hs.
    rewrite fetch_isin_fallback_run, fetch_info_run in Hs.
    cbn [snd log calls tstate0 app] in Hs.
    eexists _, _. split; [apply rate_limited_prefix|].
    split; [apply rate_limited_prefix|].
    rewrite Hs. destruct (needs_fallback _ _); cbn [log]; [right; right|right; left];
      reflexivity.
  - exists [], []. split; [apply prefix_nil|]. split; [apply prefix_nil|].
    left. rewrite enrich_row_blank by exact Ht. reflexivity.
Qed.

Lemma enrich_row_requests (net : network) (row : gmap string string) :
  let ticker := PyStr.strip (row_get row "Ticker") in
  let intl := String.eqb (PyStr.strip (row_get row "Exchange")) "FD_INTL" in
  Forall (fun r => snd r = ticker /\
                   (fst r = primary_endpoint intl \/ fst r = SecuritiesInformation))
         (requests (log (snd (enrich_row net row tstate0)))) /\
  requests_to (primary_endpoint (negb intl))
    (log (snd (enrich_row net row tstate0))) = 0%nat.
Proof.
  intros ticker intl.
  destruct (enrich_row_log net row) as (r1 & r2 & _ & _ & H).
  fold ticker in H. fold intl in H.
  pose proof (requests_attempts_log (primary_endpoint intl) ticker r1 4) as F1.
  pose proof (requests_attempts_log SecuritiesInformation ticker r2 4) as F2.
  assert (G1 : Forall (fun r => snd r = ticker /\
                 (fst r = primary_endpoint intl \/ fst r = SecuritiesInformation))
                 (requests (attempts_log (primary_endpoint intl) ticker r1 4))).
  { eapply Forall_impl; [exact F1|]. intros r ->. cbn. auto. }
  assert (G2 : Forall (fun r => snd r = ticker /\
                 (fst r = primary_endpoint intl \/ fst r = SecuritiesInformation))
                 (requests (attempts_log SecuritiesInformation ticker r2 4))).
  { eapply Forall_impl; [exact F2|]. intros r ->. cbn. auto. }
  assert (N : primary_endpoint intl <> primary_endpoint (negb intl))
    by (destruct intl; discriminate).
  assert (N' : SecuritiesInformation <> primary_endpoint (negb intl))
    by (destruct intl; discriminate).
  destruct H as [-> | [-> | ->]].
  - split; [constructor | reflexivity].
  - split; [exact G1|]. rewrite requests_to_attempts_log.
    rewrite decide_False by exact N. reflexivity.
  - split.
    + rewrite requests_app. apply Forall_app. split; assumption.
    + rewrite requests_to_app, !requests_to_attempts_log.
      rewrite decide_False by exact N. rewrite decide_False by exact N'.
      reflexivity.
Qed.

(** X4. Every request of a task carries the input ticker, stripped of
    surrounding blanks and with its exchange suffix; a task routed FD_INTL
    queries /international-company-information and never
    /company-information, any other task the converse; the only other
    endpoint a task queries is /securities-information. *)
Theorem task_requests_carry_the_ticker (net : network)
    (row : gmap string string) :
  let ticker := PyStr.strip (row_get row "Ticker") in
  let intl := String.eqb (PyStr.strip (row_get row "Exchange")) "FD_INTL" in
  let asked := requests (log (snd (enrich_row net row tstate0))) in
  Forall (fun r => snd r = ticker /\
                   (fst r = primary_endpoint intl \/ fst r = SecuritiesInformation))
         asked /\
  requests_to (primary_endpoint (negb intl))
    (log (snd (enrich_row net row tstate0))) = 0%nat.
Proof. apply enrich_row_requests. Qed.

(** ** Bounds on what a task costs *)

Lemma prefix_of_four (r : list nat) :
  r `prefix_of` [0; 1; 2; 3]%nat ->
  r = [] \/ r = [0]%nat \/ r = [0; 1]%nat \/ r = [0; 1; 2]%nat
  \/ r = [0; 1; 2; 3]%nat.
Proof.
  intros [k Hk].
  destruct r as [|a [|b [|c [|d [|e r]]]]]; cbn in Hk; simplify_eq; auto 10.
Qed.

Lemma total_sleep_app l1 l2 :
  total_sleep (l1 ++ l2) = total_sleep l1 + total_sleep l2.
Proof.
  unfold total_sleep, sleeps. rewrite omap_app.
  induction (omap _ l1) as [|d ds IH]; cbn; lia.
Qed.

Lemma on_429_calls_app l1 l2 :
  on_429_calls (l1 ++ l2) = (on_429_calls l1 + on_429_calls l2)%nat.
Proof. unfold on_429_calls. rewrite omap_app, length_app. reflexivity. Qed.

Lemma sleeps_app l1 l2 : sleeps (l1 ++ l2) = (sleeps l1 ++ sleeps l2)%list.
Proof. unfold sleeps. apply omap_app. Qed.

Lemma attempts_log_cost e t retried :
  retried `prefix_of` [0; 1; 2; 3]%nat ->
  let l := attempts_log e t retried 4 in
  (length (requests l) <= 4)%nat /\
  (on_429_calls l <= 4)%nat /\
  on_429_calls l = length (sleeps l) /\
  0 <= total_sleep l <= 15 /\
  Forall (fun d => d = 1 \/ d = 2 \/ d = 4 \/ d = 8) (sleeps l).
Proof.
  intros H. apply prefix_of_four in H.
  destruct H as [-> | [-> | [-> | [-> | ->]]]]; cbn;
    repeat split; try lia;
    repeat (apply Forall_cons_2; [vm_compute; auto|]); apply Forall_nil_2.
Qed.

Lemma scoped_prefix_held h l :
  scoped h l = true ->
  forall n,
    (if h then -1 else 0) <= slots_held (take n l) <= (if h then 0 else 1).
Proof.
  revert h. induction l as [|a l IH]; intros h Hs n.
  - rewrite take_nil. cbn. destruct h; lia.
  - destruct n as [|n]; [cbn; destruct h; lia|].
    cbn [take]. destruct a, h; cbn in Hs; try discriminate;
      specialize (IH _ Hs n); cbn [slots_held]; cbn in IH; lia.
Qed.

(** X5. Whatever the service answers, one task issues at most 8 requests,
    calls [_on_429] at most 8 times (once before each sleep), sleeps 1, 2, 4
    or 8 seconds at a time and at most 30 seconds in all, and at every point
    of its execution holds no slot or exactly one. *)
Theorem task_cost_is_bounded (net : network) (row : gmap string string) :
  let l := log (snd (enrich_row net row tstate0)) in
  (length (requests l) <= 8)%nat /\
  (on_429_calls l <= 8)%nat /\
  on_429_calls l = length (sleeps l) /\
  0 <= total_sleep l <= 30 /\
  Forall (fun d => d = 1 \/ d = 2 \/ d = 4 \/ d = 8) (sleeps l) /\
  (forall n, 0 <= slots_held (take n l) <= 1).
Proof.
  intros l.
  assert (Hheld : forall n, 0 <= slots_held (take n l) <= 1).
  { intros n.
    apply (scoped_prefix_held false l (task_program_scoped (fun _ => net) 0 row) n). }
  destruct (enrich_row_log net row) as (r1 & r2 & P1 & P2 & H).
  pose proof (attempts_log_cost
                (primary_endpoint
                   (String.eqb (PyStr.strip (row_get row "Exchange")) "FD_INTL"))
                (PyStr.strip (row_get row "Ticker")) r1 P1)
    as (A1 & A2 & A3 & A4 & A5).
  pose proof (attempts_log_cost SecuritiesInformation
                (PyStr.strip (row_get row "Ticker")) r2 P2)
    as (B1 & B2 & B3 & B4 & B5).
  cbn zeta in *. fold l in H.
  destruct H as [H | [H | H]]; rewrite H in *.
  - cbn. repeat split; try lia; try constructor; apply Hheld.
  - repeat split; try lia; try assumption; apply Hheld.
  - rewrite requests_app, length_app, on_429_calls_app, total_sleep_app,
      sleeps_app, length_app.
    repeat split; try lia; try apply Hheld.
    apply Forall_app. split; assumption.
Qed.

(** ** Trimming *)

Lemma rstrip_idem s : PyStr.rstrip (PyStr.rstrip s) = PyStr.rstrip s.
Proof.
  induction s as [|a s IH]; [reflexivity|].
  cbn [PyStr.rstrip]. destruct (PyStr.rstrip s) as [|b r] eqn:E.
  - destruct (PyStr.is_space a) eqn:S; cbn [PyStr.rstrip];
      [reflexivity | rewrite S; reflexivity].
  - change (PyStr.rstrip (String a (String b r)))
      with (match PyStr.rstrip (String b r) with
            | EmptyString =>
                if PyStr.is_space a then EmptyString else String a EmptyString
            | r0 => String a r0
            end).
    rewrite IH. reflexivity.
Qed.

Lemma rstrip_lstrip s :
  PyStr.rstrip s = s -> PyStr.rstrip (PyStr.lstrip s) = PyStr.lstrip s.
Proof.
  induction s as [|a s IH]; intros H; [reflexivity|].
  cbn [PyStr.lstrip]. destruct (PyStr.is_space a) eqn:S; [|exact H].
  apply IH. cbn [PyStr.rstrip] in H.
  destruct (PyStr.rstrip s) as [|b r] eqn:E.
  - rewrite S in H. discriminate.
  - congruence.
Qed.

Lemma lstrip_idem s : PyStr.lstrip (PyStr.lstrip s) = PyStr.lstrip s.
Proof.
  induction s as [|a s IH]; [reflexivity|].
  cbn [PyStr.lstrip]. destruct (PyStr.is_space a) eqn:S; [exact IH|].
  cbn [PyStr.lstrip]. rewrite S. reflexivity.
Qed.

Lemma strip_idem s : PyStr.strip (PyStr.strip s) = PyStr.strip s.
Proof.
  unfold PyStr.strip.
  rewrite (rstrip_lstrip (PyStr.rstrip s)) by apply rstrip_idem.
  apply lstrip_idem.
Qed.

Lemma fetch_isin_fallback_trimmed net t s :
  PyStr.strip (fst (fetch_isin_fallback net t s)) = fst (fetch_isin_fallback net t s).
Proof.
  rewrite fetch_isin_fallback_run. cbn [fst].
  destruct (_ <? 4)%nat; [|reflexivity].
  unfold isin_of. destruct (net _ _ _) as [st d| |]; try reflexivity.
  destruct (negb (st =? 200)%Z); [reflexivity | apply strip_idem].
Qed.

Lemma extract_isin_and_exchange_trimmed info intl :
  PyStr.strip (fst (extract_isin_and_exchange info intl))
    = fst (extract_isin_and_exchange info intl) /\
  PyStr.strip (snd (extract_isin_and_exchange info intl))
    = snd (extract_isin_and_exchange info intl).
Proof. unfold extract_isin_and_exchange. cbn. split; apply strip_idem. Qed.

(** X6. The ISIN the worker writes never has blanks around it: in the row
    [enrich_row] returns, the Isin field is the one of the input row, or a
    string that [strip] leaves unchanged; and so are the ISIN
    [fetch_isin_fallback] returns and both strings
    [extract_isin_and_exchange] returns. *)
Theorem written_isin_is_trimmed (net : network) (row : gmap string string)
    (s : tstate) :
  (result_row (fst (enrich_row net row s)) !! "Isin" = row !! "Isin" \/
   exists isin, result_row (fst (enrich_row net row s)) !! "Isin" = Some isin /\
                PyStr.strip isin = isin) /\
  (forall t, PyStr.strip (fst (fetch_isin_fallback net t s))
             = fst (fetch_isin_fallback net t s)) /\
  (forall info intl,
     PyStr.strip (fst (extract_isin_and_exchange info intl))
       = fst (extract_isin_and_exchange info intl) /\
     PyStr.strip (snd (extract_isin_and_exchange info intl))
       = snd (extract_isin_and_exchange info intl)).
Proof.
  split; [|split; [intros t; apply fetch_isin_fallback_trimmed
                  |apply extract_isin_and_exchange_trimmed]].
  destruct (PyStr.truthy (PyStr.strip (row_get row "Ticker"))) eqn:Ht.
  - rewrite enrich_row_nonblank by exact Ht. cbn zeta.
    destruct (fetch_info net _ _ s) as [info s1]. cbn [fst snd].
    destruct (info_truthy info).
    + right. unfold enrich_with_info.
      pose proof (extract_isin_and_exchange_trimmed (default ∅ info)
                    (String.eqb (PyStr.strip (row_get row "Exchange")) "FD_INTL"))
        as [Hx _].
      destruct (extract_isin_and_exchange _ _) as [isin ax]. cbn [fst] in Hx.
      unfold bind, ret.
      pose proof (fetch_isin_fallback_trimmed net
                    (PyStr.strip (row_get row "Ticker")) s1) as Hf.
      destruct (PyStr.truthy isin); cbn [negb].
      * exists isin. split; [|exact Hx].
        destruct (String.eqb _ "FD_INTL");
          [destruct (resolve_intl_exchange _ _) as [[[? ?] ?]|]|];
          cbn [fst result_row]; by simplify_map_eq.
      * destruct (fetch_isin_fallback net (PyStr.strip (row_get row "Ticker")) s1)
          as [isin' s2]. cbn [fst] in Hf.
        exists isin'. split; [|exact Hf].
        destruct (String.eqb _ "FD_INTL");
          [destruct (resolve_intl_exchange _ _) as [[[? ?] ?]|]|];
          cbn [fst result_row]; by simplify_map_eq.
    + rewrite enrich_without_info_run. cbn zeta. cbn [fst result_row].
      pose proof (fetch_isin_fallback_trimmed net
                    (PyStr.strip (row_get row "Ticker")) s1) as Hf.
      destruct (PyStr.truthy (fst (fetch_isin_fallback net
                  (PyStr.strip (row_get row "Ticker")) s1))).
      * right. eexists. split; [|exact Hf]. by simplify_map_eq.
      * left.
        destruct (String.eqb (PyStr.strip (row_get row "Exchange")) "FD_OTC"),
          (String.eqb (PyStr.strip (row_get row "Exchange")) "FD_US");
          by simplify_map_eq.
  - left. rewrite enrich_row_blank by exact Ht. reflexivity.
Qed.

(** ** Splitting a ticker at its last dot *)

Lemma is_dot_eq a : PyStr.is_dot a = true -> a = "."%char.
Proof.
  unfold PyStr.is_dot. intros H. apply N.eqb_eq in H.
  rewrite <- (ascii_N_embedding a), H. reflexivity.
Qed.

Lemma rsplit_dot_none s : PyStr.has_dot s = false -> PyStr.rsplit_dot s = None.
Proof.
  induction s as [|a s IH]; [reflexivity|].
  cbn. intros H. apply orb_false_iff in H as [Ha Hs].
  rewrite (IH Hs), Ha. reflexivity.
Qed.

Lemma rsplit_dot_some s :
  PyStr.has_dot s = true -> exists a b, PyStr.rsplit_dot s = Some (a, b).
Proof.
  induction s as [|c s IH]; [discriminate|].
  cbn. destruct (PyStr.has_dot s) eqn:Hs.
  - destruct (IH eq_refl) as (a & b & ->). eauto.
  - rewrite orb_false_r. intros Hc. rewrite (rsplit_dot_none s Hs), Hc. eauto.
Qed.

Lemma rsplit_dot_spec s a b :
  PyStr.rsplit_dot s = Some (a, b) ->
  s = (a ++ "." ++ b)%string /\ PyStr.has_dot b = false.
Proof.
  revert a. induction s as [|c s IH]; intros a; [discriminate|].
  cbn [PyStr.rsplit_dot].
  destruct (PyStr.rsplit_dot s) as [[a' b']|] eqn:E.
  - intros [= <- <-]. destruct (IH a' eq_refl) as [-> Hb].
    split; [reflexivity | exact Hb].
  - destruct (PyStr.is_dot c) eqn:Hc; [|discriminate].
    intros [= <- <-]. apply is_dot_eq in Hc as ->. split; [reflexivity|].
    destruct (PyStr.has_dot s) eqn:Hs; [|reflexivity].
    destruct (rsplit_dot_some s Hs) as (x & y & Hxy). congruence.
Qed.

Lemma rsplit_dot_app a b :
  PyStr.has_dot b = false ->
  PyStr.rsplit_dot (a ++ "." ++ b)%string = Some (a, b).
Proof.
  intros Hb. induction a as [|c a IH].
  - change (PyStr.rsplit_dot (String "." b) = Some (EmptyString, b)).
    cbn [PyStr.rsplit_dot]. rewrite (rsplit_dot_none b Hb). reflexivity.
  - change (PyStr.rsplit_dot (String c (a ++ "." ++ b)%string)
            = Some (String c a, b)).
    cbn [PyStr.rsplit_dot]. rewrite IH. reflexivity.
Qed.

Lemma has_dot_app a b : PyStr.has_dot (a ++ "." ++ b)%string = true.
Proof.
  induction a as [|c a IH]; [reflexivity|].
  change (PyStr.has_dot (String c (a ++ "." ++ b)%string) = true).
  cbn [PyStr.has_dot]. rewrite IH. apply orb_true_r.
Qed.

(** X7. Splitting at the last dot loses nothing: a ticker with a dot is the
    text before its last dot, a dot, and the text after it, and the text
    after it has no dot; conversely [base.sfx] with a dot-free [sfx] splits
    into [base] and [sfx], whatever dots [base] has.  So for an
    international ticker the output ticker and the suffix used to resolve
    the exchange recompose to the identifier sent to the service. *)
Theorem ticker_split_recomposes (t base sfx : string) :
  (PyStr.has_dot t = true ->
   t = (PyStr.rsplit_dot_first t ++ "." ++ PyStr.rsplit_dot_last t)%string /\
   PyStr.has_dot (PyStr.rsplit_dot_last t) = false) /\
  (PyStr.has_dot t = false ->
   PyStr.rsplit_dot_first t = t /\ PyStr.rsplit_dot_last t = t) /\
  (PyStr.has_dot sfx = false ->
   PyStr.rsplit_dot_first (base ++ "." ++ sfx)%string = base /\
   PyStr.rsplit_dot_last (base ++ "." ++ sfx)%string = sfx).
Proof.
  unfold PyStr.rsplit_dot_first, PyStr.rsplit_dot_last. repeat split.
  - destruct (rsplit_dot_some t H) as (a & b & E). rewrite E.
    apply (rsplit_dot_spec t a b E).
  - destruct (rsplit_dot_some t H) as (a & b & E). rewrite E.
    apply (rsplit_dot_spec t a b E).
  - rewrite (rsplit_dot_none t H). reflexivity.
  - rewrite (rsplit_dot_none t H). reflexivity.
  - rewrite (rsplit_dot_app base sfx H). reflexivity.
  - rewrite (rsplit_dot_app base sfx H). reflexivity.
Qed.

Lemma ticker_split_recomposes_witness :
  PyStr.has_dot "BT.A.L" = true /\
  "BT.A.L" = (PyStr.rsplit_dot_first "BT.A.L" ++ "."
                ++ PyStr.rsplit_dot_last "BT.A.L")%string.
Proof.
  split; [reflexivity|].
  apply (ticker_split_recomposes "BT.A.L" "" ""). reflexivity.
Defined.

(** ** Exchange resolution *)

Lemma upper_ascii_idem a : PyStr.upper_ascii (PyStr.upper_ascii a) = PyStr.upper_ascii a.
Proof. destruct a as [[] [] [] [] [] [] [] []]; reflexivity. Qed.

Lemma upper_ascii_dot a : PyStr.is_dot (PyStr.upper_ascii a) = PyStr.is_dot a.
Proof. destruct a as [[] [] [] [] [] [] [] []]; reflexivity. Qed.

Lemma upper_idem s : PyStr.upper (PyStr.upper s) = PyStr.upper s.
Proof.
  induction s as [|a s IH]; [reflexivity|].
  cbn [PyStr.upper]. rewrite upper_ascii_idem, IH. reflexivity.
Qed.

Lemma upper_has_dot s : PyStr.has_dot (PyStr.upper s) = PyStr.has_dot s.
Proof.
  induction s as [|a s IH]; [reflexivity|].
  cbn [PyStr.upper PyStr.has_dot]. rewrite upper_ascii_dot, IH. reflexivity.
Qed.

Lemma resolve_intl_exchange_dotted api_exchange base sfx :
  PyStr.has_dot sfx = false ->
  resolve_intl_exchange api_exchange (base ++ "." ++ sfx)%string =
    match (if PyStr.truthy api_exchange
           then dict_get INTL_EXCHANGE_MAP api_exchange else None) with
    | Some triple => Some triple
    | None => dict_get INTL_EXCHANGE_MAP (PyStr.upper sfx)
    end.
Proof.
  intros H. unfold resolve_intl_exchange, PyStr.rsplit_dot_last.
  rewrite has_dot_app, (rsplit_dot_app base sfx H). reflexivity.
Qed.

(** X8. The ticker enters the resolution of an international exchange only
    through the text after its last dot, and that text is compared without
    regard to case: [base.sfx] and [base'.SFX] resolve alike for every
    exchange name, and a name the table knows decides the result whatever
    the ticker is. *)
Theorem suffix_resolution_ignores_case (api_exchange base base' sfx t t' : string) :
  (PyStr.has_dot sfx = false ->
   resolve_intl_exchange api_exchange (base ++ "." ++ sfx)%string
     = resolve_intl_exchange api_exchange (base' ++ "." ++ PyStr.upper sfx)%string) /\
  (PyStr.truthy api_exchange = true ->
   is_Some (dict_get INTL_EXCHANGE_MAP api_exchange) ->
   resolve_intl_exchange api_exchange t = resolve_intl_exchange api_exchange t').
Proof.
  split.
  - intros H. rewrite !resolve_intl_exchange_dotted, upper_idem;
      [reflexivity | rewrite upper_has_dot; exact H | exact H].
  - intros Ht [triple Hd]. unfold resolve_intl_exchange. rewrite Ht, Hd.
    reflexivity.
Qed.

Lemma suffix_resolution_ignores_case_witness :
  PyStr.has_dot "ks" = false /\
  resolve_intl_exchange "" "005930.ks" = Some ("KO", "Korea", "KRW") /\
  resolve_intl_exchange "" "000660.KS" = Some ("KO", "Korea", "KRW").
Proof.
  split; [reflexivity|].
  pose proof (suffix_resolution_ignores_case "" "005930" "000660" "ks" "" "")
    as [H _].
  specialize (H eq_refl). split; [reflexivity|].
  change ("000660" ++ "." ++ PyStr.upper "ks")%string with "000660.KS" in H.
  rewrite <- H. reflexivity.
Defined.

Lemma dict_get_In {V : Type} (d : list (string * V)) k v :
  dict_get d k = Some v -> In (k, v) d.
Proof.
  induction d as [|[k' v'] d IH]; [discriminate|].
  cbn. destruct (String.eqb_spec k' k) as [->|N].
  - intros [= ->]. left. reflexivity.
  - intros H. right. apply IH, H.
Qed.

Lemma resolve_intl_exchange_ok api_exchange t e c cur :
  resolve_intl_exchange api_exchange t = Some (e, c, cur) ->
  e <> "" /\ e <> "FD_INTL" /\ e <> "FD_US" /\ e <> "FD_OTC"
  /\ String.length cur = 3%nat.
Proof.
  intros H.
  assert (Hin : In (e, c, cur) (map snd INTL_EXCHANGE_MAP)).
  { unfold resolve_intl_exchange in H.
    destruct (if PyStr.truthy api_exchange
              then dict_get INTL_EXCHANGE_MAP api_exchange else None)
      as [tr|] eqn:E.
    - injection H as ->. destruct (PyStr.truthy api_exchange); [|discriminate].
      apply dict_get_In in E. apply (in_map snd) in E. exact E.
    - destruct (PyStr.has_dot t); [|discriminate].
      apply dict_get_In in H. apply (in_map snd) in H. exact H. }
  apply in_map_iff in Hin as (kv & Hkv & Hin).
  assert (Hall : forallb intl_entry_ok INTL_EXCHANGE_MAP = true) by reflexivity.
  rewrite forallb_forall in Hall. specialize (Hall kv Hin).
  unfold intl_entry_ok in Hall. rewrite Hkv in Hall.
  repeat (apply andb_true_iff in Hall as [Hall ?]).
  repeat match goal with
         | H : negb _ = true |- _ => apply negb_true_iff, String.eqb_neq in H
         end.
  apply Nat.eqb_eq in H0. auto.
Qed.

(** X9. For an international task (Exchange FD_INTL, non-blank ticker) whose
    primary fetch returns a payload, the output row still carries the
    marker FD_INTL exactly when the result carries a diagnostic: a resolved
    exchange code is never empty and never a routing marker, and a resolved
    row has its Country and a three-letter Currency. *)
Theorem intl_marker_left_iff_diagnosed (net : network)
    (row : gmap string string) :
  let ticker := PyStr.strip (row_get row "Ticker") in
  let p := fetch_info net ticker true tstate0 in
  let r := enrich_row net row tstate0 in
  row !! "Exchange" = Some "FD_INTL" ->
  PyStr.truthy ticker = true ->
  info_truthy (fst p) = true ->
  (result_row (fst r) !! "Exchange" = Some "FD_INTL"
   <-> result_unrecognized (fst r) <> []) /\
  (result_unrecognized (fst r) = [] ->
   exists e c cur,
     result_row (fst r) !! "Exchange" = Some e /\
     result_row (fst r) !! "Country" = Some c /\
     result_row (fst r) !! "Currency" = Some cur /\
     e <> "" /\ e <> "FD_INTL" /\ e <> "FD_US" /\ e <> "FD_OTC" /\
     String.length cur = 3%nat).
Proof.
  intros ticker p r HE Ht Hp.
  assert (He : PyStr.strip (row_get row "Exchange") = "FD_INTL")
    by (unfold row_get; rewrite HE; reflexivity).
  unfold r. rewrite enrich_row_nonblank by exact Ht.
  fold ticker. rewrite He. change (String.eqb "FD_INTL" "FD_INTL") with true.
  fold p. cbn zeta. rewrite Hp. unfold enrich_with_info.
  destruct (extract_isin_and_exchange (default ∅ (fst p)) true) as [isin ax].
  unfold bind, ret.
  destruct ((if negb (PyStr.truthy isin) then fetch_isin_fallback net ticker
             else fun s0 => (isin, s0)) (snd p)) as [isin' s2].
  destruct (resolve_intl_exchange ax ticker) as [[[e c] cur]|] eqn:R;
    cbn [fst snd result_row result_unrecognized].
  - destruct (resolve_intl_exchange_ok _ _ _ _ _ R) as (E1 & E2 & E3 & E4 & E5).
    split.
    + split; [|congruence]. intros H. simplify_map_eq.
    + intros _. exists e, c, cur. repeat split; try assumption;
        by simplify_map_eq.
  - split.
    + split; [discriminate|]. intros _. by simplify_map_eq.
    + discriminate.
Qed.

Lemma intl_marker_left_iff_diagnosed_witness :
  task_XYZ !! "Exchange" = Some "FD_INTL" /\
  result_row (fst (enrich_row unknown_exchange_service task_XYZ tstate0))
    !! "Exchange" = Some "FD_INTL".
Proof.
  split; [reflexivity|].
  apply (intl_marker_left_iff_diagnosed unknown_exchange_service task_XYZ
           eq_refl eq_refl eq_refl).
  vm_compute. discriminate.
Defined.

(** ** The unrecognized-exchange report *)

Lemma setdefault_extend_get d k ts k' :
  dict_get (setdefault_extend d k ts) k' =
    if String.eqb k k' then Some (default [] (dict_get d k') ++ ts)%list
    else dict_get d k'.
Proof.
  induction d as [|[k0 v] d IH].
  - cbn. destruct (String.eqb k k'); reflexivity.
  - cbn [setdefault_extend]. destruct (String.eqb_spec k0 k) as [->|N0].
    + cbn [dict_get]. destruct (String.eqb k k'); reflexivity.
    + cbn [dict_get]. rewrite IH.
      destruct (String.eqb_spec k0 k') as [->|N1]; [|reflexivity].
      destruct (String.eqb_spec k k') as [->|N2]; [congruence | reflexivity].
Qed.

Lemma setdefault_extend_keys d k ts x :
  In x (map fst (setdefault_extend d k ts)) <-> x = k \/ In x (map fst d).
Proof.
  induction d as [|[k0 v] d IH].
  - cbn. intuition.
  - cbn [setdefault_extend]. destruct (String.eqb_spec k0 k) as [->|N0].
    + cbn. intuition.
    + cbn [map fst In]. rewrite IH. cbn. intuition.
Qed.

Lemma setdefault_extend_NoDup d k ts :
  List.NoDup (map fst d) -> List.NoDup (map fst (setdefault_extend d k ts)).
Proof.
  induction d as [|[k0 v] d IH]; intros H.
  - cbn. constructor; [intros []|constructor].
  - cbn [setdefault_extend]. destruct (String.eqb_spec k0 k) as [->|N0];
      [exact H|].
    cbn [map fst] in *. inversion H as [|? ? Hnot Hd]; subst.
    constructor; [|apply IH, Hd].
    rewrite setdefault_extend_keys. intros [->|Hin]; [congruence | auto].
Qed.

Lemma unrecognized_rows_cons kv d :
  unrecognized_rows (kv :: d) = (length (snd kv) + unrecognized_rows d)%nat.
Proof. reflexivity. Qed.

Lemma setdefault_extend_rows d k ts :
  unrecognized_rows (setdefault_extend d k ts)
    = (unrecognized_rows d + length ts)%nat.
Proof.
  induction d as [|[k0 v] d IH]; [cbn; lia|].
  cbn [setdefault_extend]. destruct (String.eqb k0 k).
  - rewrite !unrecognized_rows_cons. cbn [snd]. rewrite length_app. lia.
  - rewrite !unrecognized_rows_cons, IH. lia.
Qed.

Lemma unreported_no_tickers (un : list (string * list string)) k :
  existsb (fun kv => String.eqb (fst kv) k) un = false ->
  flat_map (fun kv => if String.eqb (fst kv) k then snd kv else []) un = [].
Proof.
  induction un as [|kv un IH]; [reflexivity|].
  cbn [existsb flat_map]. intros H. apply orb_false_iff in H as [H1 H2].
  rewrite H1, (IH H2). reflexivity.
Qed.

Lemma unreported_no_diag_tickers rs k :
  diag_reported k rs = false -> diag_tickers k rs = [].
Proof.
  unfold diag_reported, diag_tickers.
  induction rs as [|r rs IH]; [reflexivity|].
  cbn [existsb flat_map]. intros H. apply orb_false_iff in H as [H1 H2].
  rewrite (unreported_no_tickers _ _ H1), (IH H2). reflexivity.
Qed.

(** The dictionary after merging the diagnostics [un] of one result. *)
Lemma merge_diagnostics un d k :
  let d' := fold_left (fun d kv => setdefault_extend d (fst kv) (snd kv)) un d in
  dict_get d' k =
    (if existsb (fun kv => String.eqb (fst kv) k) un
     then Some (default [] (dict_get d k)
                ++ flat_map (fun kv => if String.eqb (fst kv) k then snd kv else [])
                            un)%list
     else dict_get d k) /\
  (List.NoDup (map fst d) -> List.NoDup (map fst d')) /\
  unrecognized_rows d' = (unrecognized_rows d + length (flat_map snd un))%nat.
Proof.
  revert d. induction un as [|[k0 ts0] un IH]; intros d.
  - cbn [fold_left existsb flat_map length]. cbn zeta.
    split; [reflexivity|]. split; [auto | lia].
  - cbn [fold_left fst snd].
    destruct (IH (setdefault_extend d k0 ts0)) as (G & N & R).
    cbn zeta. split; [|split].
    + rewrite G, setdefault_extend_get. cbn [existsb flat_map fst snd].
      destruct (String.eqb k0 k); cbn [orb default].
      * destruct (existsb _ un) eqn:X; unfold id.
        -- rewrite <- app_assoc. reflexivity.
        -- rewrite (unreported_no_tickers _ _ X), app_nil_r. reflexivity.
      * cbn [app]. reflexivity.
    + intros H. apply N, setdefault_extend_NoDup, H.
    + rewrite R, setdefault_extend_rows. cbn [flat_map snd].
      rewrite length_app. lia.
Qed.

Lemma all_unrecognized_fold rs s :
  all_unrecognized (fold_left on_completed rs s) =
    fold_left (fun d r => fold_left (fun d kv => setdefault_extend d (fst kv) (snd kv))
                                    (result_unrecognized r) d)
              rs (all_unrecognized s).
Proof.
  revert s. induction rs as [|[[row st] un] rs IH]; intros s; [reflexivity|].
  cbn [fold_left]. rewrite IH. reflexivity.
Qed.

Lemma merge_all_diagnostics rs d k :
  let d' := fold_left (fun d r => fold_left (fun d kv => setdefault_extend d (fst kv) (snd kv))
                                            (result_unrecognized r) d) rs d in
  dict_get d' k =
    (if diag_reported k rs
     then Some (default [] (dict_get d k) ++ diag_tickers k rs)%list
     else dict_get d k) /\
  (List.NoDup (map fst d) -> List.NoDup (map fst d')) /\
  unrecognized_rows d' =
    (unrecognized_rows d
     + length (flat_map (fun r => flat_map snd (result_unrecognized r)) rs))%nat.
Proof.
  revert d. induction rs as [|r rs IH]; intros d.
  - unfold diag_reported, diag_tickers.
    cbn [fold_left existsb flat_map length]. cbn zeta.
    split; [reflexivity|]. split; [auto | lia].
  - cbn [fold_left].
    destruct (merge_diagnostics (result_unrecognized r) d k) as (G1 & N1 & R1).
    cbn zeta in G1, N1, R1.
    destruct (IH (fold_left (fun d kv => setdefault_extend d (fst kv) (snd kv))
                            (result_unrecognized r) d)) as (G & N & R).
    cbn zeta. split; [|split].
    + rewrite G, G1. unfold diag_reported, diag_tickers.
      cbn [existsb flat_map].
      destruct (existsb (fun kv => String.eqb (fst kv) k) (result_unrecognized r))
        eqn:X1; cbn [orb default].
      * destruct (existsb _ rs) eqn:X; unfold id.
        -- rewrite <- app_assoc. reflexivity.
        -- change (existsb _ rs) with (diag_reported k rs) in X.
           change (flat_map _ rs) with (diag_tickers k rs).
           rewrite (unreported_no_diag_tickers _ _ X), app_nil_r. reflexivity.
      * rewrite (unreported_no_tickers _ _ X1). cbn [app]. reflexivity.
    + intros H. apply N, N1, H.
    + rewrite R, R1. cbn [flat_map]. rewrite length_app. lia.
Qed.

(** X10. The dictionary of unrecognized exchanges that [main] builds has one
    entry per raw exchange value reported by some result, no key twice; the
    tickers under a key are those of the results that report it, in the
    order in which the results completed; and the number of rows the final
    report announces is the number of tickers reported. *)
Theorem unrecognized_exchanges_are_grouped_in_order (completed : list result)
    (k : string) :
  let d := all_unrecognized (main_loop completed) in
  dict_get d k = (if diag_reported k completed
                  then Some (diag_tickers k completed) else None) /\
  List.NoDup (map fst d) /\
  unrecognized_rows d =
    length (flat_map (fun r => flat_map snd (result_unrecognized r)) completed).
Proof.
  cbn zeta. unfold main_loop. rewrite all_unrecognized_fold.
  destruct (merge_all_diagnostics completed (all_unrecognized summary0) k)
    as (G & N & R).
  cbn zeta in G, N, R. cbn [summary0 all_unrecognized] in *.
  split; [exact G|]. split; [apply N; constructor | exact R].
Qed.

(** ** Where the ceiling ends up *)

Lemma on_429_calls_cons a l :
  on_429_calls (a :: l) =
    ((match a with On429 _ => 1 | _ => 0 end) + on_429_calls l)%nat.
Proof. destruct a; reflexivity. Qed.

Lemma pending_429_insert ts i t t' :
  ts !! i = Some t ->
  (pending_429 (<[i := t']> ts) + on_429_calls (todo t)
   = pending_429 ts + on_429_calls (todo t'))%nat.
Proof.
  revert i. induction ts as [|x ts IH]; intros i H; [discriminate|].
  destruct i as [|i].
  - injection H as ->. change (<[0%nat:=t']> (t :: ts)) with (t' :: ts).
    unfold pending_429. cbn [foldr]. lia.
  - change (ts !! i = Some t) in H.
    change (<[S i:=t']> (x :: ts)) with (x :: <[i:=t']> ts).
    specialize (IH i H). unfold pending_429 in *. cbn [foldr]. lia.
Qed.

Lemma pending_429_done ts :
  Forall (fun t => done_thread t = true) ts -> pending_429 ts = 0%nat.
Proof.
  induction 1 as [|t ts Ht _ IH]; [reflexivity|].
  unfold pending_429 in *. cbn [foldr]. rewrite IH.
  unfold done_thread in Ht. apply andb_true_iff in Ht as [_ Ht].
  apply bool_decide_eq_true in Ht. rewrite Ht. reflexivity.
Qed.

Lemma held_total_done ts :
  Forall (fun t => done_thread t = true) ts -> held_total ts = 0.
Proof.
  intros H. apply held_total_idle. eapply Forall_impl; [exact H|].
  intros t Ht. unfold done_thread in Ht. apply andb_true_iff in Ht as [_ Ht].
  apply bool_decide_eq_true in Ht. rewrite Ht. reflexivity.
Qed.

Lemma ceiling_tracks_429 workers nets rows p :
  reachable workers nets rows p ->
  (pending_429 (threads p)
   <= pending_429 (threads (start_pool workers nets rows)))%nat /\
  (1 <= workers ->
   cmax (shared p) =
     Z.max 1 (workers
              - Z.of_nat (pending_429 (threads (start_pool workers nets rows)))
              + Z.of_nat (pending_429 (threads p)))).
Proof.
  induction 1 as [|p p' _ [IH1 IH2] Hstep].
  - split; [lia|]. intros Hw. cbn [start_pool shared initial_budget cmax]. lia.
  - destruct Hstep as [q i t L _ _|q i a rest b' L E]; cbn [shared threads].
    + pose proof (pending_429_insert _ _ _ (Thread true (todo t)) L) as H.
      cbn [todo] in H. split; [lia|]. intros Hw. rewrite (IH2 Hw). f_equal. lia.
    + pose proof (pending_429_insert _ _ _ (Thread true rest) L) as H.
      cbn [todo] in H. rewrite on_429_calls_cons in H.
      split; [lia|]. intros Hw. specialize (IH2 Hw).
      destruct a; cbn in E.
      * unfold _acquire_slot in E.
        destruct (active (shared q) >=? cmax (shared q)); [discriminate|].
        injection E as <-. cbn [cmax]. lia.
      * injection E as <-. cbn [_release_slot cmax]. lia.
      * injection E as <-. unfold _on_429.
        destruct (cmax (shared q) >? 1) eqn:G; cbn [cmax]; lia.
      * injection E as <-. lia.
      * injection E as <-. lia.
Qed.

(** X11. During a run with at least one worker the ceiling is the worker
    count minus the number of 429 reports made so far, and 1 once that
    would be less: it depends on how many requests were answered 429 and
    not on how the workers interleave.  When every future is done no slot
    is in use and the ceiling is the worker count minus the number of 429
    answers of the whole run, or 1. *)
Theorem ceiling_counts_429_answers (workers : Z) (nets : nat -> network)
    (rows : list (gmap string string)) (p : pool) :
  let total := pending_429 (threads (start_pool workers nets rows)) in
  1 <= workers ->
  reachable workers nets rows p ->
  (pending_429 (threads p) <= total)%nat /\
  cmax (shared p) =
    Z.max 1 (workers - Z.of_nat (total - pending_429 (threads p))) /\
  (finished p ->
   active (shared p) = 0 /\
   cmax (shared p) = Z.max 1 (workers - Z.of_nat total)).
Proof.
  intros total Hw Hp.
  destruct (ceiling_tracks_429 _ _ _ _ Hp) as [H1 H2]. fold total in H1, H2.
  specialize (H2 Hw). split; [exact H1|]. split; [rewrite H2; lia|].
  intros Hfin. destruct (reachable_inv _ _ _ _ Hw Hp) as (Ha & _).
  rewrite Ha, (held_total_done _ Hfin). split; [reflexivity|].
  rewrite H2, (pending_429_done _ Hfin). lia.
Qed.

Lemma ceiling_counts_429_answers_witness :
  1 <= 2 /\
  reachable 2 (fun _ => always_429) [task_AAA; task_AAA] overshoot_pool /\
  cmax (shared overshoot_pool) = 1.
Proof.
  split; [lia|]. split; [apply overshoot_pool_reachable|].
  pose proof (ceiling_counts_429_answers 2 (fun _ => always_429)
                [task_AAA; task_AAA] overshoot_pool ltac:(lia)
                overshoot_pool_reachable) as (_ & H & _).
  rewrite H. reflexivity.
Defined.

(** ** Loading the environment file *)

Lemma set_default_subseteq env line : env ⊆ Dotenv.set_default env line.
Proof.
  unfold Dotenv.set_default.
  destruct (Dotenv.parse_line line) as [[key value]|]; [|reflexivity].
  destruct (PyStr.truthy key); [|reflexivity].
  destruct (env !! key) eqn:E; [reflexivity|].
  apply insert_subseteq, E.
Qed.

Lemma read_env_subseteq lines env : env ⊆ Dotenv.read_env lines env.
Proof.
  revert env. induction lines as [|line lines IH]; intros env; [reflexivity|].
  cbn. etrans; [apply set_default_subseteq | apply IH].
Qed.

Lemma set_default_defines env line key value :
  Dotenv.parse_line line = Some (key, value) ->
  PyStr.truthy key = true ->
  Dotenv.set_default env line !! key = Some (default value (env !! key)).
Proof.
  intros Hp Hk. unfold Dotenv.set_default. rewrite Hp, Hk.
  destruct (env !! key) eqn:E; cbn; [exact E | apply lookup_insert_eq].
Qed.

(** X12. [load_dotenv] never overwrites: every variable of the environment
    keeps its value, and a key the file defines more than once gets the
    value of its first definition - a line that defines a key not yet in
    the environment sets it, and no later line changes it. *)
Theorem load_dotenv_never_overwrites (dirs : list (option (list string)))
    (env : gmap string string) (before after : list string)
    (line key value : string) :
  env ⊆ Dotenv.load_dotenv dirs env /\
  (Dotenv.parse_line line = Some (key, value) ->
   PyStr.truthy key = true ->
   Dotenv.read_env before env !! key = None ->
   Dotenv.read_env (before ++ line :: after) env !! key = Some value).
Proof.
  split.
  - induction dirs as [|[lines|] dirs IH]; cbn;
      [reflexivity | apply read_env_subseteq | exact IH].
  - intros Hp Hk Hnone. unfold Dotenv.read_env in *.
    rewrite fold_left_app. cbn [fold_left].
    pose proof (set_default_defines (fold_left Dotenv.set_default before env)
                  line key value Hp Hk) as H.
    rewrite Hnone in H. cbn in H.
    eapply lookup_weaken; [exact H|]. apply read_env_subseteq.
Qed.

Lemma load_dotenv_never_overwrites_witness :
  Dotenv.parse_line "FD_KEY = 'abc'  " = Some ("FD_KEY", "abc") /\
  Dotenv.read_env ([] ++ "FD_KEY = 'abc'  " :: ["# comment"; "FD_KEY=other"]) ∅
    !! "FD_KEY" = Some "abc".
Proof.
  split; [reflexivity|].
  apply (load_dotenv_never_overwrites [] ∅ [] ["# comment"; "FD_KEY=other"]
           "FD_KEY = 'abc'  " "FD_KEY" "abc"); reflexivity.
Defined.

Lemma read_env_defines lines env line key value :
  In line lines ->
  Dotenv.parse_line line = Some (key, value) ->
  PyStr.truthy key = true ->
  is_Some (Dotenv.read_env lines env !! key).
Proof.
  revert env. induction lines as [|l lines IH]; intros env Hin Hp Hk; [destruct Hin|].
  destruct Hin as [->|Hin].
  - cbn. pose proof (set_default_defines env line key value Hp Hk) as H.
    eexists. eapply lookup_weaken; [exact H | apply read_env_subseteq].
  - cbn. apply IH; assumption.
Qed.

Lemma read_env_fixed lines env :
  (forall line key value,
     In line lines -> Dotenv.parse_line line = Some (key, value) ->
     PyStr.truthy key = true -> is_Some (env !! key)) ->
  Dotenv.read_env lines env = env.
Proof.
  induction lines as [|l lines IH]; intros H; [reflexivity|].
  cbn. assert (E : Dotenv.set_default env l = env).
  { unfold Dotenv.set_default.
    destruct (Dotenv.parse_line l) as [[key value]|] eqn:Hp; [|reflexivity].
    destruct (PyStr.truthy key) eqn:Hk; [|reflexivity].
    destruct (H l key value (or_introl eq_refl) Hp Hk) as [v ->]. reflexivity. }
  rewrite E. apply IH. intros line key value Hin. apply H. right. exact Hin.
Qed.

(** X13. Loading twice is loading once: after [load_dotenv] has run, running
    it again on the same files changes nothing.  Only the nearest [.env]
    counts: the directories above the first one that has the file are not
    read. *)
Theorem load_dotenv_is_idempotent (dirs above : list (option (list string)))
    (lines : list string) (env : gmap string string) (n : nat) :
  Dotenv.load_dotenv dirs (Dotenv.load_dotenv dirs env)
    = Dotenv.load_dotenv dirs env /\
  Dotenv.load_dotenv (replicate n None ++ Some lines :: above) env
    = Dotenv.read_env lines env.
Proof.
  split.
  - induction dirs as [|[ls|] dirs IH]; cbn; [reflexivity| |exact IH].
    apply read_env_fixed. intros line key value Hin Hp Hk.
    eapply read_env_defines; eassumption.
  - induction n as [|n IH]; [reflexivity | exact IH].
Qed.

(** ** The symbol files [fetch_symbols.py] writes *)

Section WriteCsv.

Variables name_field security_type exchange : string.
Variable ticker_field : option string.

Let has_ticker (record : gmap string jvalue) : Prop :=
  PyStr.truthy (FetchSymbols.extract_ticker record ticker_field) = true.

Let line_of := symbol_line name_field security_type exchange ticker_field.

Lemma write_record_fold records st :
  let out := fold_left (FetchSymbols.write_record name_field security_type
                          exchange ticker_field) records st in
  FetchSymbols.csv_file out =
    (FetchSymbols.csv_file st
       ++ map RowLine (map line_of (filter has_ticker records)))%list /\
  FetchSymbols.csv_written out =
    FetchSymbols.csv_written st + Z.of_nat (length (filter has_ticker records)) /\
  FetchSymbols.csv_written out + FetchSymbols.csv_skipped out =
    FetchSymbols.csv_written st + FetchSymbols.csv_skipped st
      + Z.of_nat (length records).
Proof.
  revert st. induction records as [|record records IH]; intros st.
  - cbn. rewrite app_nil_r. repeat split; lia.
  - cbn [fold_left]. cbn zeta.
    destruct (IH (FetchSymbols.write_record name_field security_type exchange
                    ticker_field st record)) as (F & W & S).
    cbn zeta in F, W, S.
    split; [rewrite F|split; [rewrite W|rewrite S]];
      unfold FetchSymbols.write_record;
      destruct (PyStr.truthy (FetchSymbols.extract_ticker record ticker_field))
        eqn:T; cbn [negb FetchSymbols.csv_file FetchSymbols.csv_written
                    FetchSymbols.csv_skipped];
      rewrite ?(filter_cons_True has_ticker) by exact T;
      rewrite ?(filter_cons_False has_ticker) by (unfold has_ticker; congruence);
      cbn [map length]; try lia.
    + unfold writerow. rewrite <- app_assoc. cbn [app]. do 3 f_equal.
    + reflexivity.
Qed.


Lemma read_csv_row_lines (ls : list (list string)) names :
  read_csv (HeaderLine names :: map RowLine ls) =
    map (fun values => list_to_map (zip names values)) ls.
Proof.
  unfold read_csv. induction ls as [|l ls IH]; [reflexivity|].
  cbn. f_equal. exact IH.
Qed.

Lemma write_csv_file records :
  FetchSymbols.csv_file
    (FetchSymbols.write_csv records name_field security_type exchange ticker_field)
  = HeaderLine fieldnames :: map RowLine (map line_of (filter has_ticker records)).
Proof.
  unfold FetchSymbols.write_csv.
  destruct (write_record_fold records
              {| FetchSymbols.csv_file := [HeaderLine fieldnames];
                 FetchSymbols.csv_written := 0;
                 FetchSymbols.csv_skipped := 0 |}) as (F & _).
  exact F.
Qed.

End WriteCsv.

Lemma extract_ticker_trimmed record ticker_field :
  PyStr.strip (FetchSymbols.extract_ticker record ticker_field)
    = FetchSymbols.extract_ticker record ticker_field.
Proof.
  unfold FetchSymbols.extract_ticker. cbn zeta.
  destruct (PyStr.truthy _); apply strip_idem.
Qed.






(** X15. Every row of a file written by [write_csv], read back by
    [csv.DictReader], has exactly the columns of the output file of
    [enrich_company_info.py], a trimmed non-empty Ticker and the endpoint's
    routing marker as Exchange; [enrich_row] never skips such a row, and
    asks the service about exactly the ticker written. *)
Theorem written_symbols_are_never_skipped (records : list (gmap string jvalue))
    (name_field security_type exchange : string) (ticker_field : option string)
    (net : network) (row : gmap string string) :
  row ∈ read_csv (FetchSymbols.csv_file
                    (FetchSymbols.write_csv records name_field security_type
                       exchange ticker_field)) ->
  dom row = (list_to_set fieldnames : gset string) /\
  row_get row "Exchange" = exchange /\
  PyStr.strip (row_get row "Ticker") = row_get row "Ticker" /\
  result_status (fst (enrich_row net row tstate0)) <> Skipped /\
  Forall (fun r => snd r = row_get row "Ticker")
         (requests (log (snd (enrich_row net row tstate0)))).
Proof.
  rewrite write_csv_file, read_csv_row_lines.
  intros Hin. apply list_elem_of_fmap in Hin as (values & -> & Hin).
  apply list_elem_of_fmap in Hin as (record & -> & Hin).
  apply list_elem_of_filter in Hin as [Ht _].
  set (row := list_to_map (zip fieldnames
                (symbol_line name_field security_type exchange ticker_field record))
              : gmap string string).
  assert (HT : row_get row "Ticker" = FetchSymbols.extract_ticker record ticker_field)
    by (unfold row, row_get, symbol_line, fieldnames; cbn; by simplify_map_eq).
  assert (HE : row_get row "Exchange" = exchange)
    by (unfold row, row_get, symbol_line, fieldnames; cbn; by simplify_map_eq).
  assert (Hs : PyStr.strip (row_get row "Ticker") = row_get row "Ticker")
    by (rewrite HT; apply extract_ticker_trimmed).
  assert (Hnb : PyStr.truthy (PyStr.strip (row_get row "Ticker")) = true)
    by (rewrite Hs, HT; exact Ht).
  split; [|split; [exact HE|split; [exact Hs|split]]].
  - unfold row, symbol_line, fieldnames. cbn [zip zip_with list_to_map foldr].
    cbn. rewrite !dom_insert_L, dom_empty_L. cbn [list_to_set].
    apply set_eq. intros k.
    rewrite !elem_of_union, !elem_of_singleton, elem_of_empty. tauto.
  - rewrite enrich_row_status by exact Hnb. destruct (info_truthy _); discriminate.
  - destruct (enrich_row_requests net row) as [F _].
    cbn zeta in F. rewrite Hs in F.
    eapply Forall_impl; [exact F|]. intros r [H _]. exact H.
Qed.

Lemma written_symbols_are_never_skipped_witness :
  (list_to_map (zip fieldnames ["SHEL.L"; "Shell plc"; "FD_INTL";
                                "COMMON STOCK"; ""; ""; ""]) : gmap string string)
    ∈ read_csv (FetchSymbols.csv_file
                  (FetchSymbols.write_csv
                     [<["ticker" := JStr " SHEL.L "]>
                        (<["registrant_name" := JStr "Shell plc"]> ∅)]
                     "registrant_name" "COMMON STOCK" "FD_INTL" None)) /\
  result_status
    (fst (enrich_row always_500
            (list_to_map (zip fieldnames ["SHEL.L"; "Shell plc"; "FD_INTL";
                                           "COMMON STOCK"; ""; ""; ""]))
            tstate0)) <> Skipped.
Proof.
  assert (H : (list_to_map (zip fieldnames ["SHEL.L"; "Shell plc"; "FD_INTL";
                                "COMMON STOCK"; ""; ""; ""]) : gmap string string)
    ∈ read_csv (FetchSymbols.csv_file
                  (FetchSymbols.write_csv
                     [<["ticker" := JStr " SHEL.L "]>
                        (<["registrant_name" := JStr "Shell plc"]> ∅)]
                     "registrant_name" "COMMON STOCK" "FD_INTL" None))).
  { rewrite write_csv_file, read_csv_row_lines.
    rewrite filter_cons_True by reflexivity. apply list_elem_of_here. }
  split; [exact H|].
  apply (written_symbols_are_never_skipped _ _ _ _ _ always_500 _ H).
Defined.

(** ** Pagination *)

Section Pagination.

Variable server : string -> nat -> FetchSymbols.page_response.
Variable path : string.

Lemma fetch_all_records_served (data : list (gmap string jvalue)) :
  (forall offset,
     FetchSymbols.fetch_page server path offset
       = take FetchSymbols.PAGE_SIZE (drop offset data)) ->
  forall fuel offset acc,
    (length (drop offset data) < FetchSymbols.PAGE_SIZE * fuel)%nat ->
    FetchSymbols.fetch_all_records_from fuel server path false offset acc
      = Some (acc ++ drop offset data)%list.
Proof.
  intros Hserved. induction fuel as [|fuel IH]; intros offset acc Hlen; [lia|].
  cbn [FetchSymbols.fetch_all_records_from]. cbn zeta.
  rewrite Hserved, orb_false_r.
  destruct (length (take FetchSymbols.PAGE_SIZE (drop offset data))
            <? FetchSymbols.PAGE_SIZE)%nat eqn:E.
  - apply Nat.ltb_lt in E. rewrite length_take in E.
    rewrite take_ge by lia. reflexivity.
  - apply Nat.ltb_ge in E. rewrite length_take in E.
    rewrite IH.
    + rewrite <- app_assoc. do 2 f_equal.
      rewrite <- (take_drop FetchSymbols.PAGE_SIZE (drop offset data)) at 2.
      rewrite drop_drop. reflexivity.
    + rewrite <- drop_drop, length_drop. lia.
Qed.

Lemma fetch_all_records_stops (k : nat) :
  (forall j, (j < k)%nat ->
     (FetchSymbols.PAGE_SIZE
      <= length (FetchSymbols.fetch_page server path (FetchSymbols.PAGE_SIZE * j)))%nat) ->
  (length (FetchSymbols.fetch_page server path (FetchSymbols.PAGE_SIZE * k))
   < FetchSymbols.PAGE_SIZE)%nat ->
  forall fuel j acc,
    (j <= k)%nat -> (k - j < fuel)%nat ->
    FetchSymbols.fetch_all_records_from fuel server path false
      (FetchSymbols.PAGE_SIZE * j) acc
    = Some (acc ++ concat (map (fun i => FetchSymbols.fetch_page server path
                                            (FetchSymbols.PAGE_SIZE * i))
                               (seq j (S k - j))))%list.
Proof.
  intros Hfull Hshort. induction fuel as [|fuel IH]; intros j acc Hj Hf; [lia|].
  cbn [FetchSymbols.fetch_all_records_from]. cbn zeta. rewrite orb_false_r.
  destruct (decide (j = k)) as [->|Hne].
  - apply Nat.ltb_lt in Hshort. rewrite Hshort.
    replace (S k - k)%nat with 1%nat by lia. cbn [seq map concat].
    rewrite app_nil_r. reflexivity.
  - assert (Hlt : (j < k)%nat) by lia. specialize (Hfull j Hlt).
    apply Nat.ltb_ge in Hfull. rewrite Hfull.
    replace (FetchSymbols.PAGE_SIZE * j + FetchSymbols.PAGE_SIZE)%nat
      with (FetchSymbols.PAGE_SIZE * S j)%nat by lia.
    rewrite IH by lia.
    replace (S k - j)%nat with (S (S k - S j)) by lia.
    cbn [seq map concat]. rewrite <- app_assoc. reflexivity.
Qed.

End Pagination.

(** X16. Against a service that serves a finite list of records page by
    page (the page at an offset is the next 500 records from there),
    [fetch_all_records] returns the whole list, every record once and in
    order, as soon as it may make one request more than the list has full
    pages - also when the length is a multiple of 500, where the last
    request returns an empty page; with [first_page_only] it returns the
    first 500 records at most, after one request. *)
Theorem fetch_all_records_returns_all (server : string -> nat -> FetchSymbols.page_response)
    (path : string) (data : list (gmap string jvalue)) (fuel : nat) :
  (forall offset,
     FetchSymbols.fetch_page server path offset
       = take FetchSymbols.PAGE_SIZE (drop offset data)) ->
  (length data < FetchSymbols.PAGE_SIZE * fuel)%nat ->
  FetchSymbols.fetch_all_records fuel server path false = Some data /\
  FetchSymbols.fetch_all_records fuel server path true
    = Some (take FetchSymbols.PAGE_SIZE data).
Proof.
  intros Hserved Hlen. unfold FetchSymbols.fetch_all_records. split.
  - rewrite (fetch_all_records_served server path data Hserved) by exact Hlen.
    reflexivity.
  - destruct fuel as [|fuel]; [lia|].
    cbn [FetchSymbols.fetch_all_records_from]. cbn zeta.
    rewrite Hserved, orb_true_r. reflexivity.
Qed.

Lemma fetch_all_records_returns_all_witness :
  (length three_symbols < FetchSymbols.PAGE_SIZE * 1)%nat /\
  FetchSymbols.fetch_all_records 1
    (fun _ offset =>
       FetchSymbols.PageResponse 200
         (FetchSymbols.PageList (take FetchSymbols.PAGE_SIZE (drop offset three_symbols))))
    "/stock-symbols" false
  = Some three_symbols.
Proof.
  split; [cbn; lia|].
  apply (fetch_all_records_returns_all
           (fun _ offset =>
              FetchSymbols.PageResponse 200
                (FetchSymbols.PageList
                   (take FetchSymbols.PAGE_SIZE (drop offset three_symbols))))
           "/stock-symbols" three_symbols 1).
  - intros offset. reflexivity.
  - cbn. lia.
Defined.

(** X17. [fetch_all_records] cannot tell a failed request from the end of
    the data: when the first [k] pages are full and the request for page
    [k] ends in a URLError (an HTTP error is one) or in a status other than
    200, [fetch_page] returns the empty list for it and
    [fetch_all_records] returns the records of the first [k] pages as if
    they were all; a failure of the first request gives the empty list. *)
Theorem fetch_all_records_stops_at_failure
    (server : string -> nat -> FetchSymbols.page_response)
    (path : string) (k fuel : nat) :
  (forall j, (j < k)%nat ->
     (FetchSymbols.PAGE_SIZE
      <= length (FetchSymbols.fetch_page server path (FetchSymbols.PAGE_SIZE * j)))%nat) ->
  (server path (FetchSymbols.PAGE_SIZE * k)%nat = FetchSymbols.PageURLError \/
   exists (status : Z) (data : FetchSymbols.page_body),
     server path (FetchSymbols.PAGE_SIZE * k)%nat
       = FetchSymbols.PageResponse status data /\ status <> 200) ->
  (k < fuel)%nat ->
  FetchSymbols.fetch_page server path (FetchSymbols.PAGE_SIZE * k) = [] /\
  FetchSymbols.fetch_all_records fuel server path false
    = Some (concat (map (fun i => FetchSymbols.fetch_page server path
                                    (FetchSymbols.PAGE_SIZE * i))
                        (seq 0 k))).
Proof.
  intros Hfull Hfailed Hk.
  assert (Hfail : FetchSymbols.fetch_page server path (FetchSymbols.PAGE_SIZE * k)
                  = []).
  { unfold FetchSymbols.fetch_page.
    destruct Hfailed as [H|(status & data & H & Hs)]; rewrite H; [reflexivity|].
    destruct (status =? 200)%Z eqn:E; [apply Z.eqb_eq in E; contradiction|].
    reflexivity. }
  split; [exact Hfail|].
  unfold FetchSymbols.fetch_all_records.
  assert (Hshort : (length (FetchSymbols.fetch_page server path
                              (FetchSymbols.PAGE_SIZE * k))
                    < FetchSymbols.PAGE_SIZE)%nat)
    by (rewrite Hfail; unfold FetchSymbols.PAGE_SIZE; cbn [length]; lia).
  change 0%nat with (FetchSymbols.PAGE_SIZE * 0)%nat at 1.
  rewrite (fetch_all_records_stops server path k Hfull Hshort fuel 0 []
             ltac:(lia) ltac:(lia)).
  cbn [app]. f_equal. replace (S k - 0)%nat with (S k) by lia.
  rewrite seq_S, map_app, concat_app. cbn [map concat Nat.add].
  rewrite Hfail, !app_nil_r. reflexivity.
Qed.

(** One full page, then a request that fails. *)
Lemma fetch_all_records_stops_at_failure_witness :
  flaky_server "/etf-symbols" (FetchSymbols.PAGE_SIZE * 1)%nat
    = FetchSymbols.PageURLError /\
  FetchSymbols.fetch_all_records 2 flaky_server "/etf-symbols" false
    = Some (replicate FetchSymbols.PAGE_SIZE ({["ticker" := JStr "SPY"]} : gmap string jvalue)).
Proof.
  split; [reflexivity|].
  pose proof (fetch_all_records_stops_at_failure flaky_server "/etf-symbols" 1 2)
    as H.
  destruct H as [_ H].
  - intros j Hj. assert (j = 0)%nat as -> by lia. vm_compute. lia.
  - left. reflexivity.
  - lia.
  - rewrite H. cbn [seq map concat]. rewrite app_nil_r. reflexivity.
Defined.

(** * Cardinality of the output *)

(** ** Handled outcomes: the second embedding agrees with the first *)





Section Handled.

Variable net : network.

Let service : Raising.network := fun e identifier n => Raising.served (net e identifier n).










End Handled.


(** ** What a worker does, whatever the service answers *)


Section AnyService.

Variable net : Raising.network.













End AnyService.
(** ** The executor of a run *)



Lemma finished_no_step workers p p' :
  finished p -> ~ pool_step workers p p'.
Proof.
  intros Hf Hstep. revert Hf.
  destruct Hstep as [q i t L S0 _|q i a rest b' L _]; intros Hf.
  - pose proof (proj1 (Forall_lookup _ _) Hf i t L) as Hd. cbn in Hd.
    unfold done_thread in Hd. rewrite S0 in Hd. discriminate.
  - pose proof (proj1 (Forall_lookup _ _) Hf i _ L) as Hd. cbn in Hd.
    discriminate.
Qed.

(** ** Counting the futures that [as_completed] has yielded *)





(** ** What holds in every state of a run in which no worker raises *)

Section Run.

Variable workers : Z.
Variable service : nat -> Raising.network.
Variable tasks : list Raising.xrow.

Hypothesis workers_positive : 1 <= workers.
Hypothesis tasks_fields :
  Forall (fun row => Raising.no_wrong_fields row = true) tasks.
Hypothesis no_raise :
  forall i row, tasks !! i = Some row ->
                Raising.future_result service i row <> None.

Let run_inv := Raising.run_inv workers service tasks.










End Run.

(** ** Schedules *)




(** After an exception in [main], once the executor has finished its
    futures, the run takes no further step. *)
Lemma aborted_run_is_over workers service tasks st st' :
  Raising.aborted st = true -> Raising.all_done st = true ->
  ~ Raising.main_step workers service tasks st st'.
Proof.
  intros Ha Hd Hstep.
  destruct Hstep as [st p' Hp|st s i t row Hs Lt _ _ _].
  - eapply finished_no_step; [|exact Hp].
    unfold finished. apply Forall_forall. intros t Ht.
    unfold Raising.all_done in Hd.
    apply (proj1 (forallb_forall _ _) Hd), list_elem_of_In, Ht.
  - unfold Raising.aborted in Ha. rewrite Hs in Ha. discriminate.
Qed.
(** ** One row per task *)



